(** * godebug runtime core: a shallow embedding of [lib/debug.go]

    The instrumented program reports function entries and exits, lines and
    branch arms to this package; the package decides whether to pause and,
    when it does, runs a line oriented command loop on standard input.

    The embedding follows the Go source declaration by declaration:
    - Go [int] is a [Z] wrapped to 64 bits, [uint32] a [Z] wrapped to 32 bits;
    - [interface{}] values are the inductive [value]; a pointer is a location
      of the program's memory ([Heap]), read through [dereference];
    - [map[string]interface{}] is a [gmap string value];
    - the package level variables are the record [Session]; together with the
      identity pool, the program's memory and the two standard streams they
      form the [World] every entry point transforms;
    - a Go panic is the [Panicked] outcome of a computation;
    - the [*Context] and [*Scope] an entry point is handed are the ones
      [EnterFunc] and the scope constructors returned, so they are not nil;
      the nil context [EnterFunc] returns with [proceed = false] is [None];
    - an entry point runs from call to return without another goroutine's
      entry point in between. *)

From Stdlib Require Import ZArith Lia Ascii String.
From stdpp Require Import base gmap strings list pretty.

Local Open Scope Z_scope.

(** ** Machine integers *)

Module GoInt.

Definition int_min : Z := - 2 ^ 63.
Definition int_max : Z := 2 ^ 63 - 1.

(** Two's complement wrap-around of Go's [int] on a 64 bit target. *)
Definition wrap (z : Z) : Z := (z + 2 ^ 63) mod 2 ^ 64 - 2 ^ 63.

Definition is_int (z : Z) : Prop := int_min <= z <= int_max.

Definition add (a b : Z) : Z := wrap (a + b).
Definition sub (a b : Z) : Z := wrap (a - b).

(** [x++] and [x--]. *)
Definition incr (a : Z) : Z := add a 1.
Definition decr (a : Z) : Z := sub a 1.

(** Conversion [uint32(x)]. *)
Definition to_uint32 (z : Z) : Z := z mod 2 ^ 32.

End GoInt.

(** ** Values, memory and panics *)

(** A location of the instrumented program's memory. *)
Definition loc := positive.

(** The dynamic values an [interface{}] can hold, as far as this package
    tells them apart: [addIdents] asserts [string], [dereference] needs a
    pointer, everything else only travels through. *)
Inductive value : Type :=
  | VNil                      (* the nil interface *)
  | VBool (b : bool)
  | VInt (n : Z)
  | VString (s : string)
  | VPtr (p : option loc).    (* a pointer; [None] is the nil pointer *)

(** The program's memory: what every location currently holds. *)
Definition Heap := loc -> value.

Definition store (h : Heap) (l : loc) (v : value) : Heap :=
  fun l' => if Pos.eqb l' l then v else h l'.

Inductive panic : Type :=
  | PanicString (msg : string)                (* panic(fmt.Sprintf(...)) *)
  | PanicIndexOutOfRange (idx : Z) (len : nat) (* runtime error: index out of range *)
  | PanicReflect (i : value).                 (* reflect: Elem or Interface on a bad Value *)

Inductive outcome (A : Type) : Type :=
  | Done (a : A)
  | Panicked (p : panic).
Arguments Done {A} a.
Arguments Panicked {A} p.

Definition is_panicked {A} (o : outcome A) : bool :=
  match o with Done _ => false | Panicked _ => true end.

(** [reflect.ValueOf(i).Elem().Interface()]: [Elem] panics unless the value
    is a pointer, and [Interface] panics on the zero Value a nil pointer
    yields. *)
Definition dereference (h : Heap) (i : value) : outcome value :=
  match i with
  | VPtr (Some l) => Done (h l)
  | _ => Panicked (PanicReflect i)
  end.

(** ** Scopes

    A scope is made by [EnteringNewScope] or [EnteringNewChildScope], which
    allocate both maps.  The methods [Declare] and [Constant] of [*Scope] are
    [Scope_Declare] and [Scope_Constant] here; they return the scope as the
    call leaves it. *)

Local Unset Elimination Schemes.

Inductive Scope : Type := mkScope {
  vars : gmap string value;
  consts : gmap string value;
  parent : option Scope;
  fileText : list string
}.

Local Set Elimination Schemes.

(** Induction along the parent links, outermost scope first. *)
Fixpoint Scope_ind (P : Scope -> Prop)
    (Hroot : forall vs cs ft, P (mkScope vs cs None ft))
    (Hchild : forall vs cs p ft, P p -> P (mkScope vs cs (Some p) ft))
    (s : Scope) : P s :=
  match s with
  | mkScope vs cs None ft => Hroot vs cs ft
  | mkScope vs cs (Some p) ft => Hchild vs cs p ft (Scope_ind P Hroot Hchild p)
  end.

(** [strings.Split(text, "\n")]: the pieces between newlines, never empty. *)
Fixpoint split_lines (text : string) : list string :=
  match text with
  | EmptyString => [EmptyString]
  | String c rest =>
      if Ascii.eqb c (ascii_of_nat 10) then EmptyString :: split_lines rest
      else match split_lines rest with
           | [] => [String c EmptyString]
           | l :: ls => String c l :: ls
           end
  end.

Definition parseLines (text : string) : list string :=
  let lines := split_lines text in
  match last lines with
  | Some EmptyString => take (length lines - 1)%nat lines
  | _ => lines
  end.

Definition EnteringNewScope (text : string) : Scope :=
  {| vars := ∅; consts := ∅; parent := None; fileText := parseLines text |}.

Definition EnteringNewChildScope (s : Scope) : Scope :=
  {| vars := ∅; consts := ∅; parent := Some s; fileText := fileText s |}.

(** The loop of [getIdent] walks the parent links until it runs off the
    chain; each round tries the variable slots, then the constants. *)
Fixpoint getIdent (h : Heap) (s : Scope) (name : string) : outcome (value * bool) :=
  match vars s !! name with
  | Some i =>
      match dereference h i with
      | Done v => Done (v, true)
      | Panicked p => Panicked p
      end
  | None =>
      match consts s !! name with
      | Some i => Done (i, true)
      | None =>
          match parent s with
          | Some p => getIdent h p name
          | None => Done (VNil, false)
          end
      end
  end.

(** The two messages of [addIdents], [fmt.Sprintf] written out. *)
Definition not_a_string_msg (funcName : string) : string :=
  "programming error: got odd-numbered argument to " +:+ funcName +:+
  " that was not a string".

Definition odd_arguments_msg (funcName : string) : string :=
  "programming error: called " +:+ funcName +:+ " with odd number of arguments".

(** [addIdents]: the loop takes the arguments two at a time while two are
    left ([i+1 < len(namevalue)]); after it, [i != len(namevalue)] holds
    exactly when one argument is left over.  The map is updated in place, so
    it is returned also when the call panics. *)
Fixpoint addIdents (to : gmap string value) (funcName : string)
    (namevalue : list value) : gmap string value * outcome unit :=
  match namevalue with
  | n :: v :: rest =>
      match n with
      | VString name => addIdents (<[name := v]> to) funcName rest
      | _ => (to, Panicked (PanicString (not_a_string_msg funcName)))
      end
  | [_] => (to, Panicked (PanicString (odd_arguments_msg funcName)))
  | [] => (to, Done tt)
  end.

Definition with_vars (s : Scope) (m : gmap string value) : Scope :=
  {| vars := m; consts := consts s; parent := parent s; fileText := fileText s |}.

Definition with_consts (s : Scope) (m : gmap string value) : Scope :=
  {| vars := vars s; consts := m; parent := parent s; fileText := fileText s |}.

Definition Scope_Declare (s : Scope) (namevalue : list value) : Scope * outcome unit :=
  let '(m, r) := addIdents (vars s) "Declare" namevalue in (with_vars s m, r).

Definition Scope_Constant (s : Scope) (namevalue : list value) : Scope * outcome unit :=
  let '(m, r) := addIdents (consts s) "Constant" namevalue in (with_consts s m, r).

(** ** Session state *)

(** The constants [run], [next], [step] of the source ([iota] order). *)
Inductive State : Type := run | next | step.

Definition State_eqb (a b : State) : bool :=
  match a, b with
  | run, run | next, next | step, step => true
  | _, _ => false
  end.

(** The package level variables. *)
Record Session : Type := mkSession {
  currentState : State;
  currentDepth : Z;
  debuggerDepth : Z;
  justLeft : bool;
  currentGoroutine : Z;
  skipNextElseIfExpr : bool
}.

Definition set_currentState (x : State) (s : Session) : Session :=
  mkSession x (currentDepth s) (debuggerDepth s) (justLeft s)
            (currentGoroutine s) (skipNextElseIfExpr s).
Definition set_currentDepth (x : Z) (s : Session) : Session :=
  mkSession (currentState s) x (debuggerDepth s) (justLeft s)
            (currentGoroutine s) (skipNextElseIfExpr s).
Definition set_debuggerDepth (x : Z) (s : Session) : Session :=
  mkSession (currentState s) (currentDepth s) x (justLeft s)
            (currentGoroutine s) (skipNextElseIfExpr s).
Definition set_justLeft (x : bool) (s : Session) : Session :=
  mkSession (currentState s) (currentDepth s) (debuggerDepth s) x
            (currentGoroutine s) (skipNextElseIfExpr s).
Definition set_currentGoroutine (x : Z) (s : Session) : Session :=
  mkSession (currentState s) (currentDepth s) (debuggerDepth s) (justLeft s)
            x (skipNextElseIfExpr s).
Definition set_skipNextElseIfExpr (x : bool) (s : Session) : Session :=
  mkSession (currentState s) (currentDepth s) (debuggerDepth s) (justLeft s)
            (currentGoroutine s) x.

(** [Context] carries the identity of the reporting goroutine. *)
Record Context : Type := mkContext { goroutine : Z }.

(** Modelled from the spec: the identity pool [idPool] behind the variable
    [ids] is declared outside [debug.go].  The spec's contract is that
    [Acquire] returns the smallest identity not currently outstanding and
    [Release] returns an identity to the pool; the pool is the set of
    outstanding identities. *)
Definition idPool := gset Z.

Fixpoint lowest_free (fuel : nat) (n : Z) (p : gset Z) : Z :=
  match fuel with
  | O => n
  | S fuel' => if decide (n ∈ p) then lowest_free fuel' (n + 1) p else n
  end.

Definition Acquire (p : gset Z) : Z * gset Z :=
  let n := lowest_free (size p) 0 p in (n, {[n]} ∪ p).

Definition Release (n : Z) (p : gset Z) : gset Z := p ∖ {[n]}.

(** Everything an entry point can read or change: the session, the identity
    pool, the instrumented program's memory, what has been printed so far
    and the lines still to come on standard input. *)
Record World : Type := mkWorld {
  session : Session;
  ids : gset Z;
  heap : Heap;
  stdout : list string;
  stdin : list string
}.

Definition set_session (x : Session) (w : World) : World :=
  mkWorld x (ids w) (heap w) (stdout w) (stdin w).
Definition set_ids (x : gset Z) (w : World) : World :=
  mkWorld (session w) x (heap w) (stdout w) (stdin w).
Definition set_stdout (x : list string) (w : World) : World :=
  mkWorld (session w) (ids w) (heap w) x (stdin w).
Definition set_stdin (x : list string) (w : World) : World :=
  mkWorld (session w) (ids w) (heap w) (stdout w) x.

(** ** Computations: a state monad over [World] in which a panic stops the
    rest of the computation and keeps the state reached so far. *)

Definition M (A : Type) : Type := World -> outcome A * World.

Definition ret {A} (a : A) : M A := fun w => (Done a, w).

Definition bind {A B} (m : M A) (f : A -> M B) : M B :=
  fun w =>
    match m w with
    | (Done a, w') => f a w'
    | (Panicked p, w') => (Panicked p, w')
    end.

(** [x ← m; k] and [m;; k] are stdpp's notations for [bind]. *)
#[global] Instance M_ret : MRet M := @ret.
#[global] Instance M_bind : MBind M := fun A B f m => bind m f.

Definition panic_with {A} (p : panic) : M A := fun w => (Panicked p, w).

(** Reading and updating the package level variables. *)
Definition load : M Session := fun w => (Done (session w), w).
Definition update (f : Session -> Session) : M unit :=
  fun w => (Done tt, set_session (f (session w)) w).

(** The instrumented program's memory as it is now. *)
Definition memory : M Heap := fun w => (Done (heap w), w).

(** Lifting a computation that cannot touch the world. *)
Definition lift {A} (o : outcome A) : M A := fun w => (o, w).

Definition newline : string := String (ascii_of_nat 10) EmptyString.

(** [fmt.Print] of one string, and [fmt.Println]. *)
Definition Print (s : string) : M unit :=
  fun w => (Done tt, set_stdout (stdout w ++ [s]) w).
Definition Println (s : string) : M unit := Print (s +:+ newline).

(** [input.Scan()] has delivered a line; [rest] is still to come. *)
Definition advance (rest : list string) : M unit :=
  fun w => (Done tt, set_stdin rest w).

(** Whether a computation wrote to standard output or read standard input:
    the command loop does both before anything else. *)
Definition quiet (w w' : World) : Prop :=
  stdout w' = stdout w /\ stdin w' = stdin w.

(** ** The Go standard library

    What [strings], [fmt] and [unicode] compute is not this package's
    business; the package only passes their results on to standard output or
    to [getIdent].  They are kept abstract. *)
Class GoLib : Type := {
  (** [strings.TrimSpace] *)
  TrimSpace : string -> string;
  (** [strings.TrimRightFunc(_, unicode.IsSpace)] *)
  TrimRightSpace : string -> string;
  (** [fmt.Sscan(s, &cmd, &name)]: the count of operands scanned and what the
      two operands hold afterwards *)
  Sscan : string -> Z * string * string;
  (** [fmt.Sprintf("%#v", v)] *)
  Sprint_gosyntax : value -> string;
  (** [fmt.Sprintf("%q", s)] *)
  Sprint_quoted : string -> string
}.

Definition help : string :=
  newline +:+
  "Commands:" +:+ newline +:+
  "    (h) help: Print this help." +:+ newline +:+
  "    (n) next: Run the next line." +:+ newline +:+
  "    (s) step: Run for one step." +:+ newline +:+
  "    (c) continue: Run until the next breakpoint." +:+ newline +:+
  "    (l) list: Show the current line in context of the code around it." +:+ newline +:+
  "    (p) print <var>: Print a variable." +:+ newline +:+
  newline +:+
  "Commands may be given by their full name or by their parenthesized abbreviation." +:+ newline +:+
  "Any input that is not one of the above commands is interpreted as a variable name." +:+ newline.

(** [l[i]] on a slice of strings, with Go's bounds check. *)
Definition index (l : list string) (i : Z) : M string :=
  if (0 <=? i) && (i <? Z.of_nat (length l))
  then mret (nth (Z.to_nat i) l EmptyString)
  else panic_with (PanicIndexOutOfRange i (length l)).

(** [case a, b, c:] of a switch on a string. *)
Definition is_one_of (s : string) (cases : list string) : bool :=
  existsb (String.eqb s) cases.

Section Debugger.

Context `{GoLib}.

(** *** Function boundaries *)

Definition EnterFunc (val : option Z) (fn : M unit) : M (option Context * bool) :=
  match val with
  | None =>
      fun w =>
        let '(n, p) := Acquire (ids w) in
        let id := GoInt.to_uint32 n in
        let '(r, w') := fn (set_ids p w) in
        (* the deferred ids.Release(uint(id)) runs whether fn panics or not *)
        let w'' := set_ids (Release id (ids w')) w' in
        match r with
        | Done _ => (Done (None, false), w'')
        | Panicked e => (Panicked e, w'')
        end
  | Some v =>
      s ← load;
      (if (v =? currentGoroutine s) && negb (State_eqb (currentState s) run) then
         (if justLeft s then
            update (fun s => set_debuggerDepth (GoInt.incr (debuggerDepth s)) s);;
            update (set_justLeft false)
          else mret tt);;
         update (fun s => set_currentDepth (GoInt.incr (currentDepth s)) s)
       else mret tt);;
      mret (Some (mkContext v), true)
  end.

Definition EnterFuncLit (val : option Z) (fn : Context -> M unit)
    : M (option Context * bool) :=
  match val with
  | None =>
      fun w =>
        let '(n, p) := Acquire (ids w) in
        let id := GoInt.to_uint32 n in
        let '(r, w') := fn (mkContext id) (set_ids p w) in
        let w'' := set_ids (Release id (ids w')) w' in
        match r with
        | Done _ => (Done (None, false), w'')
        | Panicked e => (Panicked e, w'')
        end
  | Some v =>
      s ← load;
      (if (v =? currentGoroutine s) && negb (State_eqb (currentState s) run) then
         (if justLeft s then
            update (fun s => set_debuggerDepth (GoInt.incr (debuggerDepth s)) s);;
            update (set_justLeft false)
          else mret tt);;
         update (fun s => set_currentDepth (GoInt.incr (currentDepth s)) s)
       else mret tt);;
      mret (Some (mkContext v), true)
  end.

Definition ExitFunc (ctx : Context) : M unit :=
  s ← load;
  if negb (currentGoroutine s =? goroutine ctx) then mret tt
  else if State_eqb (currentState s) run then mret tt
  else
    (if State_eqb (currentState s) next && (currentDepth s =? debuggerDepth s) then
       update (fun s => set_debuggerDepth (GoInt.decr (debuggerDepth s)) s);;
       update (set_justLeft true)
     else mret tt);;
    update (fun s => set_currentDepth (GoInt.decr (currentDepth s)) s).

(** *** The pause predicate *)

Definition shouldPause (c : Context) (s : Session) : bool :=
  (currentGoroutine s =? goroutine c) &&
  (State_eqb (currentState s) step ||
   (State_eqb (currentState s) next && (currentDepth s =? debuggerDepth s))).

(** *** The command loop *)

(** The loop body of [printContext] for one index. *)
Definition printContext_at (lines : list string) (line i : Z) : M unit :=
  let prefix := if i =? line then "--> " else "    " in
  if (0 <=? i) && (i <? Z.of_nat (length lines))
  then Println (TrimRightSpace (prefix +:+ nth (Z.to_nat i) lines EmptyString))
  else mret tt.

Fixpoint printContext_loop (lines : list string) (line : Z) (idxs : list Z) : M unit :=
  match idxs with
  | [] => mret tt
  | i :: rest => printContext_at lines line i;; printContext_loop lines line rest
  end.

(** [printContext]: the loop runs [i] from [line - contextCount] up to
    [line + contextCount] (after [line--]), both computed on [int].  Every
    call in this package comes after [lineWithPrefix] has indexed
    [fileText[line-1]], so neither bound wraps around there. *)
Definition printContext (lines : list string) (line contextCount : Z) : M unit :=
  let line := GoInt.decr line in
  let lo := GoInt.sub line contextCount in
  let hi := GoInt.add line contextCount in
  Println EmptyString;;
  printContext_loop lines line (seqZ lo (hi - lo + 1));;
  Println EmptyString.

(** One round of the loop of [waitForInput] per line of standard input;
    [pending] is what the scanner has not delivered yet, and the loop ends
    at the latest when it is used up. *)
Fixpoint command_loop (pending : list string) (scope : Scope) (line : Z) : M unit :=
  Print "(godebug) ";;
  match pending with
  | [] =>
      (* input.Scan() is false *)
      Println "quitting session";;
      update (set_currentState run)
  | s :: rest =>
      advance rest;;
      if is_one_of s ["?"; "h"; "help"] then
        Println help;; command_loop rest scope line
      else if is_one_of s ["n"; "next"] then update (set_currentState next)
      else if is_one_of s ["s"; "step"] then update (set_currentState step)
      else if is_one_of s ["c"; "continue"] then update (set_currentState run)
      else if is_one_of s ["l"; "list"] then
        printContext (fileText scope) line 4;; command_loop rest scope line
      else
        h ← memory;
        r ← lift (getIdent h scope (TrimSpace s));
        if (snd r : bool) then
          Print (Sprint_gosyntax (fst r) +:+ newline);; command_loop rest scope line
        else
          let '(n, cmd, name) := Sscan s in
          if (n =? 2) && (String.eqb cmd "p" || String.eqb cmd "print") then
            r ← lift (getIdent h scope (TrimSpace name));
            if (snd r : bool) then
              Print (Sprint_gosyntax (fst r) +:+ newline);; command_loop rest scope line
            else
              Print ("Command not recognized, sorry! You typed: " +:+
                     Sprint_quoted s +:+ newline);;
              command_loop rest scope line
          else
            Print ("Command not recognized, sorry! You typed: " +:+
                   Sprint_quoted s +:+ newline);;
            command_loop rest scope line
  end.

Definition waitForInput (scope : Scope) (line : Z) : M unit :=
  fun w => command_loop (stdin w) scope line w.

(** *** Line reports *)

Definition lineWithPrefix (c : Context) (s : Scope) (line : Z) (prefix : string)
    : M unit :=
  ss ← load;
  if negb (shouldPause c ss) then mret tt
  else
    update (fun ss => set_debuggerDepth (currentDepth ss) ss);;
    update (set_justLeft false);;
    text ← index (fileText s) (GoInt.sub line 1);
    Print ("-> " +:+ prefix +:+ TrimSpace text +:+ newline);;
    waitForInput s line.

Definition Line (c : Context) (s : Scope) (line : Z) : M unit :=
  lineWithPrefix c s line EmptyString.

Definition Defer (c : Context) (s : Scope) (line : Z) : M unit :=
  lineWithPrefix c s line "<Running deferred function>: ".

(** [Case] hands back [caseSentinel(0)]. *)
Definition Case (c : Context) (s : Scope) (line : Z) : M Z :=
  Line c s line;; mret 0.

(** [Comm] and [EndSelect] hand back a nil channel. *)
Definition Comm (c : Context) (s : Scope) (line : Z) : M (option loc) :=
  Line c s line;; mret None.

Definition EndSelect (c : Context) (s : Scope) : M (option loc) :=
  ss ← load;
  (if shouldPause c ss
   then Println "< All channel expressions evaluated. Choosing case to proceed. >"
   else mret tt);;
  mret None.

Definition Select (c : Context) (s : Scope) (line : Z) : M unit :=
  ss ← load;
  if negb (shouldPause c ss) then mret tt
  else
    Line c s line;;
    ss ← load;
    if negb (State_eqb (currentState ss) run)
    then Println "< Evaluating channel expressions and RHS of send expressions. >"
    else mret tt.

(** *** Else-if *)

Definition ElseIfSimpleStmt (c : Context) (s : Scope) (line : Z) : M unit :=
  Line c s line;;
  ss ← load;
  if State_eqb (currentState ss) next
  then update (set_skipNextElseIfExpr true)
  else mret tt.

Definition ElseIfExpr (c : Context) (s : Scope) (line : Z) : M unit :=
  ss ← load;
  if negb (currentGoroutine ss =? goroutine c) then mret tt
  else if skipNextElseIfExpr ss then update (set_skipNextElseIfExpr false)
  else Line c s line.

(** *** Session activation *)

Definition SetTraceGen (ctx : Context) : M unit :=
  ss ← load;
  if negb (State_eqb (currentState ss) run) then mret tt
  else
    update (set_currentGoroutine (goroutine ctx));;
    update (set_currentState step).

(** *** Events

    What the instrumented program can report, one constructor per entry
    point, with the identity the calling goroutine is known by. *)
Inductive Event : Type :=
  | EnterFuncEv (val : option Z) (fn : M unit)
  | EnterFuncLitEv (val : option Z) (fn : Context -> M unit)
  | ExitFuncEv (ctx : Context)
  | CaseEv (c : Context) (s : Scope) (line : Z)
  | CommEv (c : Context) (s : Scope) (line : Z)
  | EndSelectEv (c : Context) (s : Scope)
  | SelectEv (c : Context) (s : Scope) (line : Z)
  | LineEv (c : Context) (s : Scope) (line : Z)
  | ElseIfSimpleStmtEv (c : Context) (s : Scope) (line : Z)
  | ElseIfExprEv (c : Context) (s : Scope) (line : Z)
  | DeferEv (c : Context) (s : Scope) (line : Z)
  | SetTraceGenEv (ctx : Context).

Definition report (e : Event) : M unit :=
  match e with
  | EnterFuncEv val fn => EnterFunc val fn;; mret tt
  | EnterFuncLitEv val fn => EnterFuncLit val fn;; mret tt
  | ExitFuncEv ctx => ExitFunc ctx
  | CaseEv c s line => Case c s line;; mret tt
  | CommEv c s line => Comm c s line;; mret tt
  | EndSelectEv c s => EndSelect c s;; mret tt
  | SelectEv c s line => Select c s line
  | LineEv c s line => Line c s line
  | ElseIfSimpleStmtEv c s line => ElseIfSimpleStmt c s line
  | ElseIfExprEv c s line => ElseIfExpr c s line
  | DeferEv c s line => Defer c s line
  | SetTraceGenEv ctx => SetTraceGen ctx
  end.

(** The identity an event is reported under; a goroutine the registry has
    not seen yet has none. *)
Definition identity (e : Event) : option Z :=
  match e with
  | EnterFuncEv val _ | EnterFuncLitEv val _ => val
  | ExitFuncEv c | CaseEv c _ _ | CommEv c _ _ | EndSelectEv c _
  | SelectEv c _ _ | LineEv c _ _ | ElseIfSimpleStmtEv c _ _
  | ElseIfExprEv c _ _ | DeferEv c _ _ | SetTraceGenEv c => Some (goroutine c)
  end.

(** A run of the instrumented program, as far as this package sees it. *)
Fixpoint reports (es : list Event) : M unit :=
  match es with
  | [] => mret tt
  | e :: es' => report e;; reports es'
  end.

End Debugger.

(** ** Reference notions the properties are stated with *)

(** The scopes of a chain, innermost first. *)
Fixpoint chain (s : Scope) : list Scope :=
  s :: match parent s with
       | Some p => chain p
       | None => []
       end.

(** A scope binds a name when it has a variable slot or a constant for it. *)
Definition binds (name : string) (s : Scope) : bool :=
  bool_decide (is_Some (vars s !! name)) || bool_decide (is_Some (consts s !! name)).

(** What a single scope answers for a name it binds: the variable slot read
    through, else the constant. *)
Definition resolve_in (h : Heap) (s : Scope) (name : string) : outcome (value * bool) :=
  match vars s !! name, consts s !! name with
  | Some i, _ =>
      match dereference h i with
      | Done v => Done (v, true)
      | Panicked p => Panicked p
      end
  | None, Some i => Done (i, true)
  | None, None => Done (VNil, false)
  end.

(** A well-formed argument list of [Declare] and [Constant]: name, value,
    name, value, ... *)
Fixpoint namevalues (kvs : list (string * value)) : list value :=
  match kvs with
  | [] => []
  | (k, v) :: rest => VString k :: v :: namevalues rest
  end.

Definition is_string (v : value) : bool :=
  match v with VString _ => true | _ => false end.

(** What is wrong with an argument list, if anything: a value without a
    name at the end, or a name position that holds no string. *)
Definition malformed (l : list value) : Prop :=
  Nat.odd (length l) = true \/
  exists i v, Nat.even i = true /\ l !! i = Some v /\ is_string v = false.

(** Adding bindings one after the other; a later binding of a name replaces
    an earlier one. *)
Definition bind_all (m : gmap string value) (kvs : list (string * value))
    : gmap string value :=
  foldl (fun m kv => <[kv.1 := kv.2]> m) m kvs.

(** A computation that only ever appends to standard output and whose
    only panics are those of [dereference]. *)
Definition tame {A} (m : M A) : Prop :=
  forall w,
    (exists more, stdout (m w).2 = stdout w ++ more) /\
    (forall p, (m w).1 = Panicked p -> exists v, p = PanicReflect v).

(** A computation ended in Go's index out of range panic. *)
Definition index_panic {A} (r : outcome A * World) : Prop :=
  exists i n, r.1 = Panicked (PanicIndexOutOfRange i n).

(** A computation that, started in [run] mode, stays there and neither
    prints nor reads, however it ends. *)
Definition stays_running (m : M unit) : Prop :=
  forall w, currentState (session w) = run ->
    currentState (session (m w).2) = run /\ quiet w (m w).2.

(** Events that cannot activate the session: everything but [SetTraceGen];
    an entry by a goroutine the registry has not seen runs the function body
    it is handed, and that body must not activate the session either. *)
Definition no_activation (e : Event) : Prop :=
  match e with
  | SetTraceGenEv _ => False
  | EnterFuncEv None fn => stays_running fn
  | EnterFuncLitEv None fn => forall c, stays_running (fn c)
  | _ => True
  end.

(** ** Further reference notions *)

(** A string with a newline in it. *)
Fixpoint has_newline (s : string) : bool :=
  match s with
  | EmptyString => false
  | String c rest => Ascii.eqb c (ascii_of_nat 10) || has_newline rest
  end.

(** A text made of lines, each ended by a newline. *)
Fixpoint join_lines (ls : list string) : string :=
  match ls with
  | [] => EmptyString
  | l :: rest => l +:+ newline +:+ join_lines rest
  end.

(** The slot of a variable as [dereference] needs it: a pointer that is not
    nil. *)
Definition is_slot (i : value) : Prop := exists l, i = VPtr (Some l).

(** Every variable slot of the chain is a pointer that is not nil, as the
    comment on [Declare] asks. *)
Definition slots_ok (s : Scope) : Prop :=
  Forall (fun sc => map_Forall (fun _ i => is_slot i) (vars sc)) (chain s).

(** The commands that end the command loop, with the mode they set. *)
Definition resumes (s : string) : option State :=
  if is_one_of s ["n"; "next"] then Some next
  else if is_one_of s ["s"; "step"] then Some step
  else if is_one_of s ["c"; "continue"] then Some run
  else None.

(** The mode the first resuming line of the input asks for and the input
    after that line; the end of the input counts as continue. *)
Fixpoint first_resume (pending : list string) : State * list string :=
  match pending with
  | [] => (run, [])
  | s :: rest =>
      match resumes s with
      | Some mode => (mode, rest)
      | None => first_resume rest
      end
  end.

(** Two worlds that differ at most in the mode and in what went over the
    standard streams. *)
Definition same_but_mode (w w' : World) : Prop :=
  currentDepth (session w') = currentDepth (session w) /\
  debuggerDepth (session w') = debuggerDepth (session w) /\
  justLeft (session w') = justLeft (session w) /\
  currentGoroutine (session w') = currentGoroutine (session w) /\
  skipNextElseIfExpr (session w') = skipNextElseIfExpr (session w) /\
  ids w' = ids w /\
  heap w' = heap w.

Section ContextLines.

Context `{GoLib}.

(** The line [printContext] shows for the index [i] of the source text, when
    [cur] is the index of the current line. *)
Definition context_line (cur i : Z) (text : string) : string :=
  TrimRightSpace ((if i =? cur then "--> " else "    ") +:+ text) +:+ newline.

End ContextLines.

(** A computation that never panics. *)
Definition returns {A} (m : M A) : Prop :=
  forall w, exists a w', m w = (Done a, w').

Section ContextWindow.

Context `{GoLib}.

(** What one round of the loop of [printContext] prints for the index [i]:
    nothing outside the source text. *)
Definition context_line_at (lines : list string) (cur i : Z) : option string :=
  if (0 <=? i) && (i <? Z.of_nat (length lines))
  then Some (context_line cur i (nth (Z.to_nat i) lines EmptyString))
  else None.

End ContextWindow.

(** The package level variables as the program starts: Go's zero values. *)
Definition initial_session : Session :=
  {| currentState := run; currentDepth := 0; debuggerDepth := 0;
     justLeft := false; currentGoroutine := 0; skipNextElseIfExpr := false |}.

(** What the comment on [justLeft] says: it is set only between leaving the
    function stepped through and the next report, in mode [next], with the
    pause depth brought down to the current depth. *)
Definition just_left_ok (s : Session) : Prop :=
  justLeft s = true ->
  currentState s = next /\ currentDepth s = debuggerDepth s.

Definition keeps_just_left_ok (m : M unit) : Prop :=
  forall w, just_left_ok (session w) -> just_left_ok (session (m w).2).

(** The function bodies handed to the entry of a goroutine the registry has
    not seen are code of the instrumented program; they are asked to keep
    what the events they are made of keep. *)
Definition body_keeps_just_left_ok (e : Event) : Prop :=
  match e with
  | EnterFuncEv None fn => keeps_just_left_ok fn
  | EnterFuncLitEv None fn => forall c, keeps_just_left_ok (fn c)
  | _ => True
  end.

(** An entry of goroutine [g] counts 1, an exit of it -1. *)
Definition boundary (g : Z) (e : Event) : option Z :=
  match e with
  | EnterFuncEv (Some v) _ | EnterFuncLitEv (Some v) _ =>
      if v =? g then Some 1 else None
  | ExitFuncEv c => if goroutine c =? g then Some (-1) else None
  | _ => None
  end.

(** Entries minus exits. *)
Fixpoint nesting (g : Z) (es : list Event) : Z :=
  match es with
  | [] => 0
  | e :: rest => default 0 (boundary g e) + nesting g rest
  end.

(** Two sessions that differ at most in the skip flag. *)
Definition same_but_skip (s s' : Session) : Prop :=
  currentState s' = currentState s /\
  currentDepth s' = currentDepth s /\
  debuggerDepth s' = debuggerDepth s /\
  justLeft s' = justLeft s /\
  currentGoroutine s' = currentGoroutine s.

(** ** A stand-in for the Go standard library

    The examples below run the entry points on input lines that are single
    words; there [strings.TrimSpace] changes nothing and [fmt.Sscan] finds
    one operand. *)
Module Plain.

Definition quote : string := String (ascii_of_nat 34) EmptyString.

Definition show (v : value) : string :=
  match v with
  | VNil => "<nil>"
  | VBool true => "true"
  | VBool false => "false"
  | VInt n => pretty n
  | VString s => quote +:+ s +:+ quote
  | VPtr None => "(*T)(nil)"
  | VPtr (Some l) => "(*T)(0x" +:+ pretty (Zpos l) +:+ ")"
  end.

#[export] Instance lib : GoLib := {|
  TrimSpace := fun s => s;
  TrimRightSpace := fun s => s;
  Sscan := fun s => (if String.eqb s EmptyString then 0 else 1, s, EmptyString);
  Sprint_gosyntax := show;
  Sprint_quoted := fun s => quote +:+ s +:+ quote
|}.

(** Three lines of source text. *)
Definition text : string :=
  "x := 1" +:+ newline +:+ "y := x" +:+ newline +:+ "return y" +:+ newline.

(** Memory in which location 1 holds 10 and location 2 holds 20. *)
Definition mem : Heap :=
  store (store (fun _ => VNil) 1%positive (VInt 10)) 2%positive (VInt 20).

(** A function scope declaring x (a variable) and k (a constant), and a
    block inside it that declares x again. *)
Definition outer : Scope :=
  (Scope_Constant (Scope_Declare (EnteringNewScope text)
                     [VString "x"; VPtr (Some 1%positive)]).1
            [VString "k"; VInt 3]).1.

Definition inner : Scope :=
  (Scope_Declare (EnteringNewChildScope outer) [VString "x"; VPtr (Some 2%positive)]).1.

(** Goroutine 0 is followed; goroutine 1 is another one. *)
Definition followed : Context := mkContext 0.
Definition other : Context := mkContext 1.

Definition world (mode : State) (depth pause : Z) (input : list string) : World :=
  {| session := {| currentState := mode; currentDepth := depth;
                   debuggerDepth := pause; justLeft := false;
                   currentGoroutine := 0; skipNextElseIfExpr := false |};
     ids := {[ 0; 1 ]};
     heap := mem;
     stdout := [];
     stdin := input |}.

End Plain.

(** * Properties *)

(** ** Go's [int] *)

Module GoIntFacts.
Import GoInt.

Lemma wrap_is_int z : is_int (wrap z).
Proof.
  unfold is_int, wrap, int_min, int_max.
  pose proof (Z.mod_pos_bound (z + 2 ^ 63) (2 ^ 64) ltac:(lia)). lia.
Qed.

Lemma wrap_id z : is_int z -> wrap z = z.
Proof.
  unfold is_int, wrap, int_min, int_max. intros Hz.
  rewrite Z.mod_small by lia. lia.
Qed.

Lemma incr_small a : is_int a -> a < int_max -> incr a = a + 1.
Proof.
  unfold incr, add, is_int, int_min, int_max. intros Ha Hlt.
  apply wrap_id. unfold is_int, int_min, int_max. lia.
Qed.

Lemma decr_small a : is_int a -> int_min < a -> decr a = a - 1.
Proof.
  unfold decr, sub, is_int, int_min, int_max. intros Ha Hlt.
  apply wrap_id. unfold is_int, int_min, int_max. lia.
Qed.

(** Wrapping or not, [x++] and [x--] never leave an [int] where it was. *)
Lemma incr_neq a : is_int a -> incr a <> a.
Proof.
  intros Ha. destruct (Z.eq_dec a int_max) as [->|Hne].
  - vm_compute. discriminate.
  - rewrite incr_small; [lia | done | unfold is_int in Ha; lia].
Qed.

Lemma decr_neq a : is_int a -> decr a <> a.
Proof.
  intros Ha. destruct (Z.eq_dec a int_min) as [->|Hne].
  - vm_compute. discriminate.
  - rewrite decr_small; [lia | done | unfold is_int in Ha; lia].
Qed.

End GoIntFacts.

(** ** Evaluating computations *)

Ltac run_m :=
  unfold mbind, M_bind, bind, mret, M_ret, ret, load, update, memory, lift,
    panic_with, Println, Print in *; cbn [fst snd session] in *.

(** Unfolding an entry point down to [lineWithPrefix]. *)
Ltac unfold_entry :=
  repeat (progress unfold report, EnterFunc, EnterFuncLit, ExitFunc, Case,
            Comm, EndSelect, Select, Line, Defer, ElseIfSimpleStmt,
            ElseIfExpr, SetTraceGen in * ).

Section Properties.

Context `{GoLib}.

(** *** The pause predicate *)

Lemma State_eqb_eq (a b : State) : State_eqb a b = true <-> a = b.
Proof. destruct a, b; cbn; split; congruence. Qed.

Lemma State_eqb_neq (a b : State) : State_eqb a b = false <-> a <> b.
Proof. destruct a, b; cbn; split; congruence. Qed.

(** C1.  [shouldPause c] is true exactly when [c] is the followed goroutine
    and the mode is [step], or the mode is [next] and the current depth is
    the pause depth; in every other state it is false. *)
Theorem shouldPause_iff (c : Context) (s : Session) :
  (shouldPause c s = true <->
     goroutine c = currentGoroutine s /\
     (currentState s = step \/
      (currentState s = next /\ currentDepth s = debuggerDepth s))) /\
  (shouldPause c s = false <->
     ~ (goroutine c = currentGoroutine s /\
        (currentState s = step \/
         (currentState s = next /\ currentDepth s = debuggerDepth s)))).
Proof.
  assert (Hiff : shouldPause c s = true <->
     goroutine c = currentGoroutine s /\
     (currentState s = step \/
      (currentState s = next /\ currentDepth s = debuggerDepth s))).
  { unfold shouldPause.
    rewrite andb_true_iff, orb_true_iff, andb_true_iff, !Z.eqb_eq,
      !State_eqb_eq.
    split; intros [Hg Hm]; (split; [congruence | exact Hm]). }
  split; [exact Hiff |].
  rewrite <- Hiff. destruct (shouldPause c s); split; congruence.
Qed.

(** *** Function boundaries *)

Lemma set_session_same (w : World) : set_session (session w) w = w.
Proof. by destruct w. Qed.

(** C2.  [EnterFunc] and [EnterFuncLit], called by a goroutine the registry
    knows as [id], return [proceed = true] and a context carrying [id].
    Exactly when [id] is the followed goroutine and the mode is not [run]
    the current depth is incremented and, if [justLeft] was set, the pause
    depth is incremented too and the flag is cleared; otherwise the
    session is left as it was. *)
Theorem EnterFunc_known (id : Z) (fn : M unit) (lit : Context -> M unit)
    (w : World) :
  exists s' : Session,
    EnterFunc (Some id) fn w =
      (Done (Some (mkContext id), true), set_session s' w) /\
    EnterFuncLit (Some id) lit w =
      (Done (Some (mkContext id), true), set_session s' w) /\
    currentState s' = currentState (session w) /\
    currentGoroutine s' = currentGoroutine (session w) /\
    skipNextElseIfExpr s' = skipNextElseIfExpr (session w) /\
    (id = currentGoroutine (session w) /\ currentState (session w) <> run ->
       currentDepth s' = GoInt.incr (currentDepth (session w)) /\
       (justLeft (session w) = true ->
          debuggerDepth s' = GoInt.incr (debuggerDepth (session w)) /\
          justLeft s' = false) /\
       (justLeft (session w) = false ->
          debuggerDepth s' = debuggerDepth (session w) /\
          justLeft s' = false)) /\
    (~ (id = currentGoroutine (session w) /\ currentState (session w) <> run) ->
       s' = session w).
Proof.
  destruct w as [[st cd dd jl cg sk] p h o i].
  unfold EnterFunc, EnterFuncLit. run_m. cbn.
  destruct (Z.eqb_spec id cg) as [->|Hne]; destruct st, jl; cbn;
    (eexists; split; [reflexivity |]; split; [reflexivity |]);
    cbn; intuition congruence.
Qed.

(** C3.  [ExitFunc ctx] changes nothing when [ctx] is not the followed
    goroutine or the mode is [run].  Otherwise it decrements the current
    depth, and exactly when the mode is [next] and the current depth was
    the pause depth it also decrements the pause depth and sets
    [justLeft]. *)
Theorem ExitFunc_effect (ctx : Context) (w : World) :
  exists s' : Session,
    ExitFunc ctx w = (Done tt, set_session s' w) /\
    (goroutine ctx <> currentGoroutine (session w) \/
     currentState (session w) = run -> s' = session w) /\
    (goroutine ctx = currentGoroutine (session w) /\
     currentState (session w) <> run ->
       currentDepth s' = GoInt.decr (currentDepth (session w)) /\
       currentState s' = currentState (session w) /\
       currentGoroutine s' = currentGoroutine (session w) /\
       skipNextElseIfExpr s' = skipNextElseIfExpr (session w) /\
       (currentState (session w) = next /\
        currentDepth (session w) = debuggerDepth (session w) ->
          debuggerDepth s' = GoInt.decr (debuggerDepth (session w)) /\
          justLeft s' = true) /\
       (~ (currentState (session w) = next /\
           currentDepth (session w) = debuggerDepth (session w)) ->
          debuggerDepth s' = debuggerDepth (session w) /\
          justLeft s' = justLeft (session w))).
Proof.
  destruct w as [[st cd dd jl cg sk] p h o i], ctx as [g].
  unfold ExitFunc. run_m. cbn.
  destruct (Z.eqb_spec cg g) as [->|Hne]; destruct st; cbn;
    try destruct (Z.eqb_spec cd dd) as [->|Hd]; cbn;
    (eexists; split; [reflexivity |]); cbn; intuition congruence.
Qed.

(** *** Session activation *)

(** C6.  [SetTraceGen ctx] changes nothing unless the mode is [run]; in
    mode [run] it makes [ctx]'s goroutine the followed one and sets the mode
    to [step], leaving the rest of the session alone. *)
Theorem SetTraceGen_effect (ctx : Context) (w : World) :
  (currentState (session w) <> run -> SetTraceGen ctx w = (Done tt, w)) /\
  (currentState (session w) = run ->
     SetTraceGen ctx w =
       (Done tt,
        set_session
          {| currentState := step;
             currentDepth := currentDepth (session w);
             debuggerDepth := debuggerDepth (session w);
             justLeft := justLeft (session w);
             currentGoroutine := goroutine ctx;
             skipNextElseIfExpr := skipNextElseIfExpr (session w) |} w)).
Proof.
  destruct w as [[st cd dd jl cg sk] p h o i], ctx as [g].
  unfold SetTraceGen. run_m. destruct st; cbn; split; intros Hm; try congruence; reflexivity.
Qed.

(** *** Reports that do not pause *)

Lemma shouldPause_other (c : Context) (s : Session) :
  goroutine c <> currentGoroutine s -> shouldPause c s = false.
Proof.
  intros Hne. unfold shouldPause.
  destruct (Z.eqb_spec (currentGoroutine s) (goroutine c)); [congruence | done].
Qed.

Lemma shouldPause_run (c : Context) (s : Session) :
  currentState s = run -> shouldPause c s = false.
Proof. intros Hr. unfold shouldPause. rewrite Hr. cbn. apply andb_false_r. Qed.

Lemma lineWithPrefix_skip (c : Context) (s : Scope) (line : Z)
    (prefix : string) (w : World) :
  shouldPause c (session w) = false ->
  lineWithPrefix c s line prefix w = (Done tt, w).
Proof. intros Hp. unfold lineWithPrefix. run_m. by rewrite Hp. Qed.

Lemma quiet_refl (w : World) : quiet w w.
Proof. by split. Qed.

Lemma quiet_set_session (w : World) (s : Session) : quiet w (set_session s w).
Proof. by split. Qed.

(** C4.  An event reported under an identity that is not the followed
    goroutine returns normally, whatever the mode, without printing or
    reading a command (the command loop is not entered), and leaves the
    current depth and the pause depth as they were. *)
Theorem non_followed_event_inert (e : Event) (id : Z) (w : World) :
  identity e = Some id ->
  id <> currentGoroutine (session w) ->
  exists w',
    report e w = (Done tt, w') /\
    quiet w w' /\
    currentDepth (session w') = currentDepth (session w) /\
    debuggerDepth (session w') = debuggerDepth (session w).
Proof.
  intros Hid Hne.
  assert (Hline : forall c s line prefix, goroutine c = id ->
            lineWithPrefix c s line prefix w = (Done tt, w)).
  { intros c s line prefix <-. by apply lineWithPrefix_skip, shouldPause_other. }
  assert (Hsp : forall c, goroutine c = id -> shouldPause c (session w) = false).
  { intros c <-. by apply shouldPause_other. }
  assert (Hg : (id =? currentGoroutine (session w)) = false) by by apply Z.eqb_neq.
  assert (Hg' : (currentGoroutine (session w) =? id) = false)
    by by apply Z.eqb_neq.
  destruct e as [val fn | val fn | c | c s line | c s line | c s | c s line
                | c s line | c s line | c s line | c s line | c];
    cbn in Hid; simplify_eq;
    unfold_entry; run_m;
    rewrite ?Hline, ?Hsp, ?Hg, ?Hg' by done; cbn;
    try (eexists; split; [reflexivity |]; by repeat split).
  (* left: the entries, where the mode is looked at before the identity
     decides, ElseIfSimpleStmt, which may set its flag, and SetTraceGen,
     which may activate the session; the depths stay in each *)
  all: destruct (currentState (session w)); cbn;
    eexists; (split; [reflexivity |]); by repeat split.
Qed.

(** *** The command loop only prints, and only [dereference] can panic in it *)

Lemma tame_ret {A} (a : A) : tame (mret a : M A).
Proof. intros w. split; [exists []; cbn; by rewrite app_nil_r | done]. Qed.

Lemma tame_bind {A B} (m : M A) (f : A -> M B) :
  tame m -> (forall a, tame (f a)) -> tame (m ≫= f).
Proof.
  intros Hm Hf w. specialize (Hm w). run_m.
  destruct (m w) as [[a|p] w1]; cbn in *.
  2:{ destruct Hm as [Ho Hp]. split; [exact Ho |].
      intros p0 Heq. apply Hp. congruence. }
  destruct Hm as [[more1 Ho1] _]. destruct (Hf a w1) as [[more2 Ho2] Hp].
  split; [| exact Hp].
  exists (more1 ++ more2). by rewrite Ho2, Ho1, app_assoc.
Qed.

Lemma tame_Print (s : string) : tame (Print s).
Proof. intros w. split; [by exists [s] | done]. Qed.

Lemma tame_Println (s : string) : tame (Println s).
Proof. apply tame_Print. Qed.

Lemma tame_update (f : Session -> Session) : tame (update f).
Proof. intros w. split; [exists []; cbn; by rewrite app_nil_r | done]. Qed.

Lemma tame_advance (rest : list string) : tame (advance rest).
Proof. intros w. split; [exists []; cbn; by rewrite app_nil_r | done]. Qed.

Lemma tame_memory : tame memory.
Proof. intros w. split; [exists []; cbn; by rewrite app_nil_r | done]. Qed.

Lemma tame_load : tame load.
Proof. intros w. split; [exists []; cbn; by rewrite app_nil_r | done]. Qed.

Lemma getIdent_panic (h : Heap) (s : Scope) (name : string) (p : panic) :
  getIdent h s name = Panicked p -> exists v, p = PanicReflect v.
Proof.
  induction s as [vs cs ft | vs cs q ft IH] using Scope_ind; cbn;
    (destruct (vs !! name) as [[| b | n | str | [l|]]|]; cbn;
     [intros; simplify_eq; eauto .. |]);
    destruct (cs !! name); cbn; intros; simplify_eq; eauto.
Qed.

Lemma tame_getIdent (h : Heap) (s : Scope) (name : string) :
  tame (lift (getIdent h s name)).
Proof.
  intros w. split; [exists []; cbn; by rewrite app_nil_r |].
  cbn. apply getIdent_panic.
Qed.

Lemma tame_printContext (lines : list string) (line contextCount : Z) :
  tame (printContext lines line contextCount).
Proof.
  unfold printContext.
  apply tame_bind; [apply tame_Println | intros _].
  apply tame_bind; [| intros _; apply tame_Println].
  generalize (GoInt.decr line) as cur.
  intros cur. generalize (seqZ (GoInt.sub cur contextCount)
    (GoInt.add cur contextCount - GoInt.sub cur contextCount + 1)) as idxs.
  induction idxs as [|i idxs IH]; cbn; [apply tame_ret |].
  apply tame_bind; [| intros _; exact IH].
  unfold printContext_at. destruct (_ && _); [apply tame_Println | apply tame_ret].
Qed.

(** The rounds of the loop are built from tame pieces. *)
Ltac tame_pieces loop_is_tame :=
  repeat match goal with
         | |- tame (if ?b then _ else _) => destruct b
         | |- tame (let '(_, _) := ?x in _) => destruct x
         | |- tame (_ ≫= _) => apply tame_bind; [| intros ?]
         | |- tame (command_loop _ _ _) => apply loop_is_tame
         | |- tame (lift (getIdent _ _ _)) => apply tame_getIdent
         | |- _ => first [ apply tame_Print | apply tame_Println
                         | apply tame_update | apply tame_memory
                         | apply tame_advance | apply tame_printContext ]
         end.

Lemma tame_command_loop (pending : list string) (scope : Scope) (line : Z) :
  tame (command_loop pending scope line).
Proof.
  induction pending as [|s rest IH]; cbn [command_loop].
  - tame_pieces (tame_ret tt).
  - tame_pieces IH.
Qed.

(** Entering the command loop shows: the prompt is printed first. *)
Lemma waitForInput_prompts (scope : Scope) (line : Z) (w : World) :
  exists more,
    stdout (waitForInput scope line w).2 = stdout w ++ "(godebug) " :: more.
Proof.
  unfold waitForInput.
  assert (Hk : exists k : M unit,
            tame k /\
            command_loop (stdin w) scope line = (Print "(godebug) ";; k)).
  { destruct (stdin w) as [|s rest]; cbn [command_loop];
      (eexists; split; [| reflexivity]).
    - tame_pieces (tame_ret tt).
    - tame_pieces (tame_command_loop rest). }
  destruct Hk as (k & Hk & ->). run_m.
  destruct (Hk (set_stdout (stdout w ++ ["(godebug) "]) w)) as [[more Ho] _].
  exists more. rewrite Ho. cbn. by rewrite <- app_assoc.
Qed.

Lemma waitForInput_not_quiet (scope : Scope) (line : Z) (w : World) :
  ~ quiet w (waitForInput scope line w).2.
Proof.
  intros [Ho _]. destruct (waitForInput_prompts scope line w) as [more Hm].
  rewrite Hm in Ho. apply (f_equal length) in Ho.
  rewrite length_app in Ho. cbn in Ho. lia.
Qed.

Lemma tame_waitForInput (scope : Scope) (line : Z) : tame (waitForInput scope line).
Proof. intros w. apply (tame_command_loop (stdin w) scope line w). Qed.

(** *** Indexing the source text *)

Lemma index_in_range (l : list string) (i : Z) (w : World) :
  0 <= i < Z.of_nat (length l) ->
  index l i w = (Done (nth (Z.to_nat i) l EmptyString), w).
Proof.
  intros Hi. unfold index.
  destruct (Z.leb_spec 0 i); [| lia]. destruct (Z.ltb_spec i (Z.of_nat (length l))); [| lia].
  done.
Qed.

Lemma index_out_of_range (l : list string) (i : Z) (w : World) :
  ~ (0 <= i < Z.of_nat (length l)) ->
  index l i w = (Panicked (PanicIndexOutOfRange i (length l)), w).
Proof.
  intros Hi. unfold index.
  destruct (Z.leb_spec 0 i); destruct (Z.ltb_spec i (Z.of_nat (length l)));
    cbn; try done; lia.
Qed.

Lemma lineWithPrefix_index_panic (c : Context) (s : Scope) (line : Z)
    (prefix : string) (w : World) :
  Z.of_nat (length (fileText s)) <= GoInt.int_max ->
  shouldPause c (session w) = true ->
  GoInt.is_int line ->
  index_panic (lineWithPrefix c s line prefix w) <->
  ~ (1 <= line <= Z.of_nat (length (fileText s))).
Proof.
  intros Hlen Hp Hint.
  unfold lineWithPrefix, index_panic. run_m. rewrite Hp. cbn.
  change (GoInt.sub line 1) with (GoInt.decr line).
  destruct (decide (1 <= line <= Z.of_nat (length (fileText s)))) as [Hin|Hout].
  - rewrite GoIntFacts.decr_small
      by (unfold GoInt.is_int, GoInt.int_min in *; lia).
    rewrite index_in_range by lia. cbn.
    split; [| done]. intros (i & n & Hpanic). exfalso.
    set (w1 := set_stdout _ _) in Hpanic.
    destruct (tame_waitForInput s line w1) as [_ Hreflect].
    destruct (Hreflect _ Hpanic) as [v Hv]. discriminate.
  - rewrite index_out_of_range.
    + cbn. split; [done |]. intros _. eauto.
    + destruct (decide (line = GoInt.int_min)) as [->|Hmin].
      * vm_compute (GoInt.decr GoInt.int_min).
        unfold GoInt.int_max in Hlen. lia.
      * rewrite GoIntFacts.decr_small
          by (unfold GoInt.is_int, GoInt.int_min in *; lia).
        lia.
Qed.

(** What follows a line report in a marker cannot panic, so the marker ends
    in an index panic exactly when its line report does. *)
Lemma index_panic_bind {A B} (m : M A) (k : A -> M B) (w : World) :
  (forall a w1, exists b w2, k a w1 = (Done b, w2)) ->
  index_panic ((m ≫= k) w) <-> index_panic (m w).
Proof.
  intros Hk. unfold index_panic. run_m.
  destruct (m w) as [[a|p] w1]; cbn.
  - destruct (Hk a w1) as (b & w2 & ->). cbn.
    split; intros (i & n & Hpanic); discriminate.
  - split; intros (i & n & Hpanic); exists i, n; congruence.
Qed.

(** C10.  Every line report that fires reads [fileText[line-1]] unchecked:
    [lineWithPrefix], [Line] and [Defer], the markers [Case], [Comm] and
    [Select], and the else-if pair [ElseIfSimpleStmt] and [ElseIfExpr] (the
    latter when its skip flag is not set) end in an index out of range panic
    exactly when [line] is not one of 1 .. [len(fileText)].  When
    [shouldPause] is false each of them returns normally for every line
    number, and so does an [ElseIfExpr] that is skipped. *)
Theorem line_report_index_safety (c : Context) (s : Scope) (prefix : string)
    (w : World) :
  Z.of_nat (length (fileText s)) <= GoInt.int_max ->
  (shouldPause c (session w) = false ->
     forall line,
       lineWithPrefix c s line prefix w = (Done tt, w) /\
       Line c s line w = (Done tt, w) /\
       Defer c s line w = (Done tt, w) /\
       Case c s line w = (Done 0, w) /\
       Comm c s line w = (Done None, w) /\
       Select c s line w = (Done tt, w) /\
       (ElseIfSimpleStmt c s line w).1 = Done tt /\
       (ElseIfExpr c s line w).1 = Done tt) /\
  (shouldPause c (session w) = true ->
     forall line, GoInt.is_int line ->
       (index_panic (lineWithPrefix c s line prefix w) <->
        ~ (1 <= line <= Z.of_nat (length (fileText s)))) /\
       (index_panic (Line c s line w) <->
        ~ (1 <= line <= Z.of_nat (length (fileText s)))) /\
       (index_panic (Defer c s line w) <->
        ~ (1 <= line <= Z.of_nat (length (fileText s)))) /\
       (index_panic (Case c s line w) <->
        ~ (1 <= line <= Z.of_nat (length (fileText s)))) /\
       (index_panic (Comm c s line w) <->
        ~ (1 <= line <= Z.of_nat (length (fileText s)))) /\
       (index_panic (Select c s line w) <->
        ~ (1 <= line <= Z.of_nat (length (fileText s)))) /\
       (index_panic (ElseIfSimpleStmt c s line w) <->
        ~ (1 <= line <= Z.of_nat (length (fileText s)))) /\
       (skipNextElseIfExpr (session w) = false ->
          (index_panic (ElseIfExpr c s line w) <->
           ~ (1 <= line <= Z.of_nat (length (fileText s))))) /\
       (skipNextElseIfExpr (session w) = true ->
          ElseIfExpr c s line w =
            (Done tt,
             set_session (set_skipNextElseIfExpr false (session w)) w))) /\
  (forall line, Line c s line = lineWithPrefix c s line EmptyString) /\
  (forall line,
     Defer c s line = lineWithPrefix c s line "<Running deferred function>: ").
Proof.
  intros Hlen. split; [| split; [| by split]].
  - intros Hp line.
    assert (Hskip : forall pre, lineWithPrefix c s line pre w = (Done tt, w))
      by (intros pre; by apply lineWithPrefix_skip).
    split; [apply Hskip |]. split; [apply Hskip |]. split; [apply Hskip |].
    unfold_entry; run_m; rewrite ?Hskip, ?Hp; cbn.
    repeat (split; [reflexivity |]). split.
    + by destruct (State_eqb (currentState (session w)) next).
    + destruct (currentGoroutine (session w) =? goroutine c); cbn; [| done].
      destruct (skipNextElseIfExpr (session w)); cbn; [done |].
      by rewrite Hskip.
  - intros Hp line Hint.
    assert (Hidx : forall pre,
              index_panic (lineWithPrefix c s line pre w) <->
              ~ (1 <= line <= Z.of_nat (length (fileText s))))
      by (intros pre; by apply lineWithPrefix_index_panic).
    assert (Hfollowed : (currentGoroutine (session w) =? goroutine c) = true).
    { unfold shouldPause in Hp. by apply andb_true_iff in Hp as [Hg _]. }
    split; [apply Hidx |]. split; [apply Hidx |]. split; [apply Hidx |].
    split; [| split; [| split; [| split; [| split]]]].
    + (* Case *)
      rewrite <- (Hidx EmptyString). unfold Case, Line.
      apply index_panic_bind. intros a w1. by eexists _, _.
    + (* Comm *)
      rewrite <- (Hidx EmptyString). unfold Comm, Line.
      apply index_panic_bind. intros a w1. by eexists _, _.
    + (* Select *)
      rewrite <- (Hidx EmptyString).
      assert (Hsel : Select c s line w =
                (lineWithPrefix c s line EmptyString ≫= fun _ =>
                   ss ← load;
                   if negb (State_eqb (currentState ss) run)
                   then Println "< Evaluating channel expressions and RHS of send expressions. >"
                   else mret tt) w).
      { unfold Select, Line. run_m. by rewrite Hp. }
      rewrite Hsel. apply index_panic_bind. intros a w1. run_m.
      destruct (negb _); by eexists _, _.
    + (* ElseIfSimpleStmt *)
      rewrite <- (Hidx EmptyString). unfold ElseIfSimpleStmt, Line.
      apply index_panic_bind. intros a w1. run_m.
      destruct (State_eqb _ next); by eexists _, _.
    + (* ElseIfExpr, not skipped *)
      intros Hflag. rewrite <- (Hidx EmptyString).
      unfold ElseIfExpr, Line. run_m. by rewrite Hfollowed, Hflag.
    + (* ElseIfExpr, skipped *)
      intros Hflag. unfold ElseIfExpr. run_m. by rewrite Hfollowed, Hflag.
Qed.

(** *** Else-if *)

(** C5, as the code has it.  Once [ElseIfSimpleStmt] has returned in mode
    [next] the skip flag is set.  From there an [ElseIfExpr] reported by
    another goroutine than the followed one returns at once and leaves the
    flag set; the next [ElseIfExpr] of the followed goroutine is
    suppressed and clears the flag, whether or not it would have paused;
    after that [ElseIfExpr] is a plain line report again. *)
Theorem ElseIfExpr_skips_once (c : Context) (s : Scope) (line : Z)
    (w w1 : World) :
  ElseIfSimpleStmt c s line w = (Done tt, w1) ->
  currentState (session w1) = next ->
  skipNextElseIfExpr (session w1) = true /\
  (forall c2 s2 line2,
     goroutine c2 <> currentGoroutine (session w1) ->
     ElseIfExpr c2 s2 line2 w1 = (Done tt, w1)) /\
  (forall c2 s2 line2,
     goroutine c2 = currentGoroutine (session w1) ->
     let w2 := set_session (set_skipNextElseIfExpr false (session w1)) w1 in
     ElseIfExpr c2 s2 line2 w1 = (Done tt, w2) /\
     forall c3 s3 line3, ElseIfExpr c3 s3 line3 w2 = Line c3 s3 line3 w2).
Proof.
  intros Hstmt Hnext.
  assert (Hflag : skipNextElseIfExpr (session w1) = true).
  { unfold ElseIfSimpleStmt in Hstmt. run_m.
    destruct (Line c s line w) as [[[]|p] w']; [| discriminate].
    destruct (State_eqb (currentState (session w')) next) eqn:Hm;
      simplify_eq; [done |].
    apply State_eqb_neq in Hm. done. }
  split; [exact Hflag |]. split.
  - intros c2 s2 line2 Hne. unfold ElseIfExpr. run_m.
    destruct (Z.eqb_spec (currentGoroutine (session w1)) (goroutine c2));
      [congruence | done].
  - intros c2 s2 line2 Heq w2. split.
    + unfold ElseIfExpr. run_m. rewrite Heq, Z.eqb_refl, Hflag. done.
    + intros c3 s3 line3. unfold ElseIfExpr. run_m.
      destruct (Z.eqb_spec (currentGoroutine (session w2)) (goroutine c3)) as [He|Hne];
        cbn.
      * subst w2. by destruct w1 as [[] ? ? ? ?].
      * unfold Line. symmetry. apply lineWithPrefix_skip, shouldPause_other.
        congruence.
Qed.

(** *** End of input *)

Lemma quiet_trans (w1 w2 w3 : World) : quiet w1 w2 -> quiet w2 w3 -> quiet w1 w3.
Proof. intros [? ?] [? ?]. split; congruence. Qed.

Lemma report_stays_running (e : Event) :
  no_activation e -> stays_running (report e).
Proof.
  intros Hno w Hrun.
  assert (Hline : forall c s line prefix,
            lineWithPrefix c s line prefix w = (Done tt, w)).
  { intros. by apply lineWithPrefix_skip, shouldPause_run. }
  assert (Hsp : forall c, shouldPause c (session w) = false).
  { intros. by apply shouldPause_run. }
  destruct e as [[id|] fn | [id|] fn | c | c s line | c s line | c s | c s line
                | c s line | c s line | c s line | c s line | c];
    cbn in Hno; try done;
    unfold_entry; run_m; rewrite ?Hline, ?Hsp, ?Hrun, ?andb_false_r; cbn;
    rewrite ?Hrun; cbn; try (split; [done | apply quiet_refl]).
  - (* an unknown goroutine enters: its function body runs *)
    destruct (Hno (set_ids ({[lowest_free (size (ids w)) 0 (ids w)]} ∪ ids w) w) Hrun)
      as [Hr Hq].
    destruct (fn _) as [[[]|p] w']; cbn in *; (split; [done |]);
      destruct Hq; by split.
  - destruct (Hno (mkContext (GoInt.to_uint32 (lowest_free (size (ids w)) 0 (ids w))))
                (set_ids ({[lowest_free (size (ids w)) 0 (ids w)]} ∪ ids w) w) Hrun)
      as [Hr Hq].
    destruct (fn _ _) as [[[]|p] w']; cbn in *; (split; [done |]);
      destruct Hq; by split.
  - (* ExitFunc *)
    destruct (_ =? _); cbn; (split; [done | apply quiet_refl]).
  - (* ElseIfExpr of the followed goroutine may clear its flag *)
    destruct (_ =? _); cbn; [| split; [done | apply quiet_refl]].
    destruct (skipNextElseIfExpr (session w)); cbn;
      rewrite ?Hline; cbn; (split; [done | by split]).
Qed.

Lemma reports_stay_running (es : list Event) :
  Forall no_activation es -> stays_running (reports es).
Proof.
  induction 1 as [|e es He Hes IH]; intros w Hrun; cbn [reports].
  - split; [done | apply quiet_refl].
  - destruct (report_stays_running e He w Hrun) as [Hr Hq]. run_m.
    destruct (report e w) as [[[]|p] w']; cbn in *; [| by split].
    destruct (IH w' Hr) as [Hr' Hq']. split; [done |].
    by apply quiet_trans with w'.
Qed.

(** C8, as the code has it.  At the end of input the command loop prints
    its prompt and the termination notice, forces the mode to [run] and
    returns.  From then on no goroutine's report pauses, prints or reads,
    and the mode stays [run], for as long as the session is not activated
    again by [SetTraceGen]. *)
Theorem end_of_input_stops_pausing (scope : Scope) (line : Z) (w : World) :
  stdin w = [] ->
  exists w1,
    waitForInput scope line w = (Done tt, w1) /\
    stdout w1 = stdout w ++ ["(godebug) "; "quitting session" +:+ newline] /\
    stdin w1 = [] /\
    currentState (session w1) = run /\
    (forall c, shouldPause c (session w1) = false) /\
    (forall es, Forall no_activation es ->
       currentState (session (reports es w1).2) = run /\
       quiet w1 (reports es w1).2).
Proof.
  intros Heof. unfold waitForInput. rewrite Heof. cbn [command_loop]. run_m.
  eexists. split; [reflexivity |]. cbn.
  split; [by rewrite <- app_assoc |]. split; [done |]. split; [done |].
  split; [intros c; by apply shouldPause_run |].
  intros es Hes. by apply (reports_stay_running es Hes).
Qed.

End Properties.

(** ** Scopes *)

Section ScopeProperties.

(** Lists are taken apart two elements at a time, as [addIdents] does. *)
Lemma list_pair_ind (A : Type) (P : list A -> Prop) :
  P [] -> (forall x, P [x]) -> (forall x y l, P l -> P (x :: y :: l)) ->
  forall l, P l.
Proof.
  intros Hnil Hone Hstep.
  fix IH 1. intros [|x [|y l]]; [exact Hnil | apply Hone |].
  apply Hstep, IH.
Qed.

Lemma malformed_nil : ~ malformed [].
Proof. intros [Ho | (i & v & _ & Hl & _)]; [discriminate | by destruct i]. Qed.

Lemma malformed_one (x : value) : malformed [x].
Proof. by left. Qed.

Lemma malformed_cons2 (x y : value) (l : list value) :
  malformed (x :: y :: l) <-> is_string x = false \/ malformed l.
Proof.
  unfold malformed. split.
  - intros [Ho | (i & v & He & Hl & Hs)].
    + right; left. exact Ho.
    + destruct i as [|[|i]]; cbn in *.
      * left. congruence.
      * discriminate.
      * right; right. exists i, v. auto.
  - intros [Hx | [Ho | (i & v & He & Hl & Hs)]].
    + right. exists 0%nat, x. auto.
    + left. exact Ho.
    + right. exists (S (S i)), v. auto.
Qed.

Lemma namevalues_well_formed (kvs : list (string * value)) :
  ~ malformed (namevalues kvs).
Proof.
  induction kvs as [|[k v] kvs IH]; cbn.
  - apply malformed_nil.
  - rewrite malformed_cons2. intros [Hk | Hm]; [discriminate | auto].
Qed.

Lemma namevalues_inj (kvs kvs' : list (string * value)) :
  namevalues kvs = namevalues kvs' -> kvs = kvs'.
Proof.
  revert kvs'. induction kvs as [|[k v] kvs IH]; intros [|[k' v'] kvs'];
    cbn; try done.
  intros Heq. injection Heq as -> -> Hrest. f_equal. by apply IH.
Qed.

(** The loop of [addIdents] against the argument list: it ends normally
    exactly on the well-formed lists, having added every binding in
    order; it panics with one of its two messages on the others. *)
Lemma addIdents_spec (funcName : string) (l : list value) :
  forall to : gmap string value,
    match addIdents to funcName l with
    | (m, Done _) => exists kvs, l = namevalues kvs /\ m = bind_all to kvs
    | (m, Panicked p) =>
        malformed l /\
        (p = PanicString (not_a_string_msg funcName) \/
         p = PanicString (odd_arguments_msg funcName))
    end.
Proof.
  induction l as [|x|x y l IH] using list_pair_ind; intros to.
  - cbn. by exists [].
  - cbn. split; [apply malformed_one | by right].
  - destruct x as [| b | n | name | p];
      try (cbn; split; [apply malformed_cons2; by left | by left]).
    change (addIdents to funcName (VString name :: y :: l))
      with (addIdents (<[name := y]> to) funcName l).
    specialize (IH (<[name := y]> to)).
    destruct (addIdents (<[name := y]> to) funcName l) as [m [[]|p]].
    + destruct IH as (kvs & -> & ->). by exists ((name, y) :: kvs).
    + destruct IH as [Hm Hp]. split; [| exact Hp].
      apply malformed_cons2. by right.
Qed.

(** C7.  [Declare] and [Constant] panic exactly on the argument lists with
    an odd number of elements or with something other than a string in a
    name (even index) position, and then with one of the two messages of
    [addIdents], which name the function called.  On every list of
    name/value pairs they return normally and have added each binding, in
    order, to the variable slots (for [Declare]) or to the constants (for
    [Constant]) and to nothing else. *)
Theorem Declare_Constant_contract (s : Scope) (l : list value) :
  (is_panicked (Scope_Declare s l).2 = true <-> malformed l) /\
  (is_panicked (Scope_Constant s l).2 = true <-> malformed l) /\
  (forall p, (Scope_Declare s l).2 = Panicked p ->
     p = PanicString (not_a_string_msg "Declare") \/
     p = PanicString (odd_arguments_msg "Declare")) /\
  (forall p, (Scope_Constant s l).2 = Panicked p ->
     p = PanicString (not_a_string_msg "Constant") \/
     p = PanicString (odd_arguments_msg "Constant")) /\
  (~ malformed l <-> exists kvs, l = namevalues kvs) /\
  (forall kvs, l = namevalues kvs ->
     Scope_Declare s l = (with_vars s (bind_all (vars s) kvs), Done tt) /\
     Scope_Constant s l = (with_consts s (bind_all (consts s) kvs), Done tt)).
Proof.
  pose proof (addIdents_spec "Declare" l (vars s)) as HD.
  pose proof (addIdents_spec "Constant" l (consts s)) as HC.
  unfold Scope_Declare, Scope_Constant.
  destruct (addIdents (vars s) "Declare" l) as [mD [[]|pD]];
    destruct (addIdents (consts s) "Constant" l) as [mC [[]|pC]]; cbn.
  - destruct HD as (kvs & Hl & ->), HC as (kvs' & Hl' & ->).
    assert (Hwf : ~ malformed l) by (rewrite Hl; apply namevalues_well_formed).
    assert (kvs' = kvs) as -> by (apply namevalues_inj; congruence).
    repeat split; try done; try (intros; exfalso; by auto).
    + by exists kvs.
    + assert (kvs0 = kvs) as -> by (apply namevalues_inj; congruence). done.
    + assert (kvs0 = kvs) as -> by (apply namevalues_inj; congruence). done.
  - exfalso. destruct HD as (kvs & -> & _), HC as [Hm _].
    by apply (namevalues_well_formed kvs).
  - exfalso. destruct HC as (kvs & -> & _), HD as [Hm _].
    by apply (namevalues_well_formed kvs).
  - destruct HD as [Hm HpD], HC as [_ HpC].
    assert (Hno : forall kvs, l <> namevalues kvs).
    { intros kvs ->. by apply (namevalues_well_formed kvs). }
    repeat split; try done; try (intros; simplify_eq; done).
    all: try (intros Hx; exfalso;
              first [ by apply Hx
                    | destruct Hx as (kvs' & Hl'); by apply (Hno kvs') ]).
    all: exfalso; by eapply Hno.
Qed.

(** Unfolding one round of the loop of [getIdent]. *)
Lemma getIdent_unfold (h : Heap) (s : Scope) (name : string) :
  getIdent h s name =
    if binds name s then resolve_in h s name
    else match parent s with
         | Some p => getIdent h p name
         | None => Done (VNil, false)
         end.
Proof.
  destruct s as [vs cs p ft]. unfold binds, resolve_in. cbn.
  destruct (vs !! name) as [i|] eqn:Hv; cbn; [done |].
  destruct (cs !! name) as [i|] eqn:Hc; cbn; done.
Qed.

Lemma getIdent_find (h : Heap) (s : Scope) (name : string) :
  getIdent h s name =
    match List.find (binds name) (chain s) with
    | Some sc => resolve_in h sc name
    | None => Done (VNil, false)
    end.
Proof.
  induction s as [vs cs ft | vs cs p ft IH] using Scope_ind;
    rewrite getIdent_unfold; cbn [chain parent List.find];
    destruct (binds name _); try done.
Qed.

(** C9.  [getIdent] answers from the innermost scope of the chain that
    binds the name, and in that scope from the variable slot, read through
    to the value the program's memory holds now, before the constant; a
    name no scope binds is not found.  In particular, when a scope and its
    child both declare x, the lookup in the child gives the child's x. *)
Theorem getIdent_innermost (h : Heap) (s : Scope) (name : string) :
  getIdent h s name =
    match List.find (binds name) (chain s) with
    | Some sc => resolve_in h sc name
    | None => Done (VNil, false)
    end /\
  (forall l, vars s !! name = Some (VPtr (Some l)) ->
     getIdent h s name = Done (h l, true)) /\
  (forall v, vars s !! name = None -> consts s !! name = Some v ->
     getIdent h s name = Done (v, true)) /\
  (forall lp lc : loc,
     let p := (Scope_Declare s [VString name; VPtr (Some lp)]).1 in
     let c := (Scope_Declare (EnteringNewChildScope p)
                       [VString name; VPtr (Some lc)]).1 in
     getIdent h p name = Done (h lp, true) /\
     getIdent h c name = Done (h lc, true)).
Proof.
  split; [apply getIdent_find |].
  split; [| split].
  - intros l Hv. destruct s as [vs cs p ft]. cbn in *. by rewrite Hv.
  - intros v Hv Hc. destruct s as [vs cs p ft]. cbn in *. by rewrite Hv, Hc.
  - intros lp lc. destruct s as [vs cs p ft]. cbn.
    by rewrite !lookup_insert_eq.
Qed.

End ScopeProperties.

(** * Examples: the entry points run on a small program *)

Module Examples.
Import Plain.

(** The source text is three lines. *)
Example outer_fileText : fileText outer = ["x := 1"; "y := x"; "return y"].
Proof. reflexivity. Qed.

(** Innermost binding, variable slots read through, constants as given. *)
Example lookup_inner_x : getIdent mem inner "x" = Done (VInt 20, true).
Proof. reflexivity. Qed.

Example lookup_outer_x : getIdent mem outer "x" = Done (VInt 10, true).
Proof. reflexivity. Qed.

Example lookup_inner_k : getIdent mem inner "k" = Done (VInt 3, true).
Proof. reflexivity. Qed.

Example lookup_missing : getIdent mem inner "total" = Done (VNil, false).
Proof. reflexivity. Qed.

(** A slot sees what the program stores later. *)
Example lookup_after_store :
  getIdent (store mem 2%positive (VInt 21)) inner "x" = Done (VInt 21, true).
Proof. reflexivity. Qed.

(** Step over a call: activate, pause on line 1, the operator says next;
    the line inside the call does not pause, the line after it does. *)
Example step_over_a_call :
  let w := world run 0 0 ["next"; "c"] in
  let w := (reports [SetTraceGenEv followed;
                     LineEv followed outer 1;
                     EnterFuncEv (Some 0) (mret tt);
                     LineEv followed inner 1;
                     ExitFuncEv followed;
                     LineEv followed outer 2] w).2 in
  stdout w = ["-> x := 1" +:+ newline; "(godebug) ";
              "-> y := x" +:+ newline; "(godebug) "] /\
  currentState (session w) = run.
Proof. by vm_compute. Qed.

Lemma non_followed_event_inert_witness :
  let e := LineEv other outer 2 in
  let w := world step 0 0 ["n"] in
  identity e = Some 1 /\
  1 <> currentGoroutine (session w) /\
  exists w',
    report e w = (Done tt, w') /\
    quiet w w' /\
    currentDepth (session w') = currentDepth (session w) /\
    debuggerDepth (session w') = debuggerDepth (session w).
Proof.
  cbv zeta. split; [reflexivity |]. split; [cbn; lia |].
  apply (non_followed_event_inert (LineEv other outer 2) 1 (world step 0 0 ["n"]));
    [reflexivity | cbn; lia].
Defined.

(** The followed goroutine pauses on the else-if guard's statement, the
    operator says next, the flag is set; then another goroutine reports an
    else-if condition.  The flag is still set afterwards, and it is the
    followed goroutine's own next report, the second one, that is
    suppressed although a line report would pause there. *)
Lemma skip_flag_survives_other_goroutine :
  let w1 := (ElseIfSimpleStmt followed outer 1 (world step 0 0 ["n"])).2 in
  let w2 := (ElseIfExpr other outer 2 w1).2 in
  currentState (session w1) = next /\
  skipNextElseIfExpr (session w1) = true /\
  skipNextElseIfExpr (session w2) = true /\
  shouldPause followed (session w2) = true /\
  quiet w2 (ElseIfExpr followed outer 2 w2).2 /\
  ~ quiet w2 (Line followed outer 2 w2).2.
Proof.
  cbv zeta. repeat split; try reflexivity.
  intros [Hout _]. vm_compute in Hout. discriminate.
Qed.

Lemma ElseIfExpr_skips_once_witness :
  let w := world step 0 0 ["n"] in
  let w1 := (ElseIfSimpleStmt followed outer 1 w).2 in
  ElseIfSimpleStmt followed outer 1 w = (Done tt, w1) /\
  currentState (session w1) = next /\
  skipNextElseIfExpr (session w1) = true /\
  (forall c2 s2 line2,
     goroutine c2 <> currentGoroutine (session w1) ->
     ElseIfExpr c2 s2 line2 w1 = (Done tt, w1)) /\
  (forall c2 s2 line2,
     goroutine c2 = currentGoroutine (session w1) ->
     let w2 := set_session (set_skipNextElseIfExpr false (session w1)) w1 in
     ElseIfExpr c2 s2 line2 w1 = (Done tt, w2) /\
     forall c3 s3 line3, ElseIfExpr c3 s3 line3 w2 = Line c3 s3 line3 w2).
Proof.
  cbv zeta. split; [reflexivity |]. split; [reflexivity |].
  apply (ElseIfExpr_skips_once followed outer 1 (world step 0 0 ["n"]));
    reflexivity.
Defined.

(** Input ends while goroutine 0 is paused on line 1; the mode is [run].
    Goroutine 1 then activates the session and reports line 2: the line is
    shown and the command loop is entered again. *)
Lemma pause_after_end_of_input :
  let w1 := (Line followed outer 1 (world step 0 0 [])).2 in
  let w2 := (reports [SetTraceGenEv other; LineEv other outer 2] w1).2 in
  stdin w1 = [] /\
  currentState (session w1) = run /\
  shouldPause other (session (SetTraceGen other w1).2) = true /\
  stdout w2 = stdout w1 ++ ["-> y := x" +:+ newline; "(godebug) ";
                            "quitting session" +:+ newline] /\
  ~ quiet w1 w2.
Proof.
  cbv zeta. repeat split; try reflexivity.
  intros [Hout _]. vm_compute in Hout. discriminate.
Qed.

Lemma end_of_input_stops_pausing_witness :
  let w := world step 0 0 [] in
  stdin w = [] /\
  exists w1,
    waitForInput outer 1 w = (Done tt, w1) /\
    stdout w1 = stdout w ++ ["(godebug) "; "quitting session" +:+ newline] /\
    stdin w1 = [] /\
    currentState (session w1) = run /\
    (forall c, shouldPause c (session w1) = false) /\
    (forall es, Forall no_activation es ->
       currentState (session (reports es w1).2) = run /\
       quiet w1 (reports es w1).2).
Proof.
  cbv zeta. split; [reflexivity |].
  apply (end_of_input_stops_pausing outer 1 (world step 0 0 [])). reflexivity.
Defined.

Lemma line_report_index_safety_witness :
  let w := world step 0 0 ["c"] in
  let c := followed in
  let s := outer in
  Z.of_nat (length (fileText s)) <= GoInt.int_max /\
  (shouldPause c (session w) = false ->
     forall line,
       lineWithPrefix c s line EmptyString w = (Done tt, w) /\
       Line c s line w = (Done tt, w) /\
       Defer c s line w = (Done tt, w) /\
       Case c s line w = (Done 0, w) /\
       Comm c s line w = (Done None, w) /\
       Select c s line w = (Done tt, w) /\
       (ElseIfSimpleStmt c s line w).1 = Done tt /\
       (ElseIfExpr c s line w).1 = Done tt) /\
  (shouldPause c (session w) = true ->
     forall line, GoInt.is_int line ->
       (index_panic (lineWithPrefix c s line EmptyString w) <->
        ~ (1 <= line <= Z.of_nat (length (fileText s)))) /\
       (index_panic (Line c s line w) <->
        ~ (1 <= line <= Z.of_nat (length (fileText s)))) /\
       (index_panic (Defer c s line w) <->
        ~ (1 <= line <= Z.of_nat (length (fileText s)))) /\
       (index_panic (Case c s line w) <->
        ~ (1 <= line <= Z.of_nat (length (fileText s)))) /\
       (index_panic (Comm c s line w) <->
        ~ (1 <= line <= Z.of_nat (length (fileText s)))) /\
       (index_panic (Select c s line w) <->
        ~ (1 <= line <= Z.of_nat (length (fileText s)))) /\
       (index_panic (ElseIfSimpleStmt c s line w) <->
        ~ (1 <= line <= Z.of_nat (length (fileText s)))) /\
       (skipNextElseIfExpr (session w) = false ->
          (index_panic (ElseIfExpr c s line w) <->
           ~ (1 <= line <= Z.of_nat (length (fileText s))))) /\
       (skipNextElseIfExpr (session w) = true ->
          ElseIfExpr c s line w =
            (Done tt,
             set_session (set_skipNextElseIfExpr false (session w)) w))) /\
  (forall line, Line c s line = lineWithPrefix c s line EmptyString) /\
  (forall line,
     Defer c s line = lineWithPrefix c s line "<Running deferred function>: ").
Proof.
  cbv zeta.
  assert (Hlen : Z.of_nat (length (fileText outer)) <= GoInt.int_max)
    by (vm_compute; discriminate).
  split; [exact Hlen |].
  apply (line_report_index_safety followed outer EmptyString
           (world step 0 0 ["c"]) Hlen).
Defined.

(** Line 4 of a three line text: the report panics; line 3 does not. *)
Example line_4_panics :
  (Line followed outer 4 (world step 0 0 ["c"])).1 =
    Panicked (PanicIndexOutOfRange 3 3).
Proof. reflexivity. Qed.

(** The markers read the same line unchecked. *)
Example markers_line_4_panic :
  (Case followed outer 4 (world step 0 0 ["c"])).1 =
    Panicked (PanicIndexOutOfRange 3 3) /\
  (Comm followed outer 4 (world step 0 0 ["c"])).1 =
    Panicked (PanicIndexOutOfRange 3 3) /\
  (Select followed outer 4 (world step 0 0 ["c"])).1 =
    Panicked (PanicIndexOutOfRange 3 3) /\
  (ElseIfSimpleStmt followed outer 0 (world step 0 0 ["c"])).1 =
    Panicked (PanicIndexOutOfRange (-1) 3) /\
  (ElseIfExpr followed outer 0 (world step 0 0 ["c"])).1 =
    Panicked (PanicIndexOutOfRange (-1) 3) /\
  (Defer followed outer 4 (world step 0 0 ["c"])).1 =
    Panicked (PanicIndexOutOfRange 3 3).
Proof. by vm_compute. Qed.

Example line_3_pauses :
  let r := Line followed outer 3 (world step 0 0 ["c"]) in
  r.1 = Done tt /\
  stdout r.2 = ["-> return y" +:+ newline; "(godebug) "] /\
  currentState (session r.2) = run.
Proof. by vm_compute. Qed.

End Examples.

(** * Further properties *)

(** ** Source text *)

Section SourceText.

Lemma split_lines_nonempty (text : string) : split_lines text <> [].
Proof.
  destruct text as [|c rest]; cbn; [done |].
  destruct (Ascii.eqb c _); [done |]. by destruct (split_lines rest).
Qed.

Lemma append_cons (c : ascii) (l x : string) :
  String c l +:+ x = String c (l +:+ x).
Proof. reflexivity. Qed.

Lemma append_assoc (a b c : string) : (a +:+ b) +:+ c = a +:+ b +:+ c.
Proof. induction a as [|x a IH]; [done |]. by rewrite !append_cons, IH. Qed.

Lemma append_empty_r (a : string) : a +:+ EmptyString = a.
Proof. induction a as [|x a IH]; [done |]. by rewrite append_cons, IH. Qed.

Lemma split_lines_line (l rest : string) :
  has_newline l = false ->
  split_lines (l +:+ newline +:+ rest) = l :: split_lines rest.
Proof.
  change (newline +:+ rest) with (String (ascii_of_nat 10) rest).
  induction l as [|c l IH]; [done |].
  rewrite append_cons. cbn [has_newline split_lines].
  destruct (Ascii.eqb c _); cbn; [done |].
  intros Hl. by rewrite (IH Hl).
Qed.

Lemma split_lines_last_line (l : string) :
  has_newline l = false -> split_lines l = [l].
Proof.
  induction l as [|c l IH]; cbn; [done |].
  destruct (Ascii.eqb c _); cbn; [done |].
  intros Hl. by rewrite (IH Hl).
Qed.

Lemma split_lines_join (ls : list string) (l : string) :
  Forall (fun l => has_newline l = false) ls -> has_newline l = false ->
  split_lines (join_lines ls +:+ l) = ls ++ [l].
Proof.
  induction 1 as [|l0 ls Hl0 Hls IH]; intros Hl; cbn [join_lines].
  - by apply split_lines_last_line.
  - rewrite !append_assoc.
    rewrite split_lines_line by done. by rewrite IH.
Qed.

(** X1.  Lines in, lines out: a text of newline free lines, each ended by a
    newline, parses into exactly those lines (the trailing newline is not a
    line of its own, and the empty text has no line); when a last line
    without its newline follows, it is the last line parsed. *)
Theorem parseLines_join_lines (ls : list string) (l : string) :
  Forall (fun l => has_newline l = false) ls ->
  has_newline l = false ->
  parseLines (join_lines ls) = ls /\
  (l <> EmptyString -> parseLines (join_lines ls +:+ l) = ls ++ [l]).
Proof.
  intros Hls Hl. unfold parseLines. split.
  - rewrite <- (append_empty_r (join_lines ls)).
    rewrite split_lines_join by done.
    rewrite last_snoc, length_app, Nat.add_sub. cbn. by rewrite take_app_length.
  - intros Hne. rewrite split_lines_join by done.
    rewrite last_snoc. by destruct l.
Qed.

Lemma split_lines_no_newline (text : string) :
  Forall (fun l => has_newline l = false) (split_lines text).
Proof.
  induction text as [|c rest IH]; cbn; [by repeat constructor |].
  destruct (Ascii.eqb c _) eqn:Hc; [by constructor |].
  destruct (split_lines rest) as [|l ls]; [by repeat constructor; cbn; rewrite Hc |].
  inversion IH; subst. constructor; [cbn; by rewrite Hc | done].
Qed.

(** X2.  Whatever the text, no parsed line has a newline in it, and there
    are at most as many lines as the text has characters. *)
Theorem parseLines_lines (text : string) :
  Forall (fun l => has_newline l = false) (parseLines text) /\
  (length (parseLines text) <= String.length text)%nat.
Proof.
  split.
  - unfold parseLines. pose proof (split_lines_no_newline text) as Hall.
    destruct (last (split_lines text)) as [[|]|]; try done.
    by apply Forall_take.
  - unfold parseLines.
    assert (Hlen : forall t, (length (split_lines t) <= S (String.length t))%nat).
    { induction t as [|c rest IH]; cbn; [lia |].
      destruct (Ascii.eqb c _); cbn; [lia |].
      destruct (split_lines rest); cbn in *; lia. }
    assert (Hlast : forall t, (length (split_lines t) = S (String.length t))%nat ->
              last (split_lines t) = Some EmptyString).
    { induction t as [|c rest IH]; cbn; [done |].
      pose proof (Hlen rest) as Hr.
      destruct (Ascii.eqb c _); cbn.
      - intros Heq. rewrite last_cons, IH by lia. done.
      - destruct (split_lines rest) eqn:Hs; cbn in *; lia. }
    pose proof (Hlen text) as Hl. pose proof (Hlast text) as Hla.
    destruct (last (split_lines text)) as [[|]|] eqn:Hlst;
      rewrite ?length_take; try lia.
    + destruct (decide (length (split_lines text) = S (String.length text)));
        [specialize (Hla ltac:(done)); congruence | lia].
    + destruct (decide (length (split_lines text) = S (String.length text)));
        [specialize (Hla ltac:(done)); congruence | lia].
Qed.

End SourceText.

(** ** Scopes, continued *)

Section ScopeLookup.

Lemma find_binds (name : string) (scs : list Scope) (sc : Scope) :
  List.find (binds name) scs = Some sc -> binds name sc = true.
Proof. intros Hf. by destruct (List.find_some _ _ Hf). Qed.

Lemma find_none_Forall (name : string) (scs : list Scope) :
  List.find (binds name) scs = None <->
  Forall (fun sc => binds name sc = false) scs.
Proof.
  induction scs as [|sc scs IH]; cbn; [by split; [constructor |] |].
  destruct (binds name sc) eqn:Hb.
  - split; [done |]. intros Hall. inversion Hall; congruence.
  - rewrite IH. split; [by constructor | by inversion 1].
Qed.

Lemma binds_spec (name : string) (sc : Scope) :
  binds name sc = true <->
  is_Some (vars sc !! name) \/ is_Some (consts sc !! name).
Proof.
  unfold binds. rewrite orb_true_iff, !bool_decide_eq_true. done.
Qed.

Lemma is_slot_or_not (i : value) : is_slot i \/ ~ is_slot i.
Proof.
  destruct i as [| | | |[l|]]; try (right; intros [? ?]; discriminate).
  left. by exists l.
Qed.

Lemma dereference_slot (h : Heap) (i : value) :
  (is_slot i -> exists l, i = VPtr (Some l) /\ dereference h i = Done (h l)) /\
  (~ is_slot i -> dereference h i = Panicked (PanicReflect i)).
Proof.
  split.
  - intros [l ->]. by exists l.
  - intros Hn. destruct i as [| | | |[l|]]; try done.
    exfalso. apply Hn. by exists l.
Qed.

Lemma getIdent_panics_iff (h : Heap) (s : Scope) (name : string) :
  is_panicked (getIdent h s name) = true <->
  exists sc i,
    List.find (binds name) (chain s) = Some sc /\
    vars sc !! name = Some i /\ ~ is_slot i.
Proof.
  rewrite getIdent_find.
  destruct (List.find (binds name) (chain s)) as [sc|] eqn:Hf.
  - pose proof (find_binds _ _ _ Hf) as Hb. apply binds_spec in Hb.
    unfold resolve_in.
    destruct (vars sc !! name) as [i|] eqn:Hv.
    + destruct (dereference_slot h i) as [Hs Hn].
      destruct (is_slot_or_not i) as [Hi|Hi].
      * destruct (Hs Hi) as (l & -> & ->). cbn.
        split; [done |]. intros (sc' & i' & ? & ? & Hn'). simplify_eq.
        exfalso. apply Hn'. by exists l.
      * rewrite (Hn Hi). cbn. split; [| done]. intros _. by exists sc, i.
    + destruct Hb as [[? ?]|[c Hc]]; [done |]. rewrite Hc. cbn.
      split; [done |]. intros (sc' & i' & ? & ? & _). simplify_eq.
  - cbn. split; [done |]. intros (sc' & i' & ? & _). done.
Qed.

Lemma getIdent_not_found_iff (h : Heap) (s : Scope) (name : string) (v : value) :
  getIdent h s name = Done (v, false) <->
  v = VNil /\ Forall (fun sc => binds name sc = false) (chain s).
Proof.
  rewrite getIdent_find.
  destruct (List.find (binds name) (chain s)) as [sc|] eqn:Hf.
  - pose proof (find_binds _ _ _ Hf) as Hb. apply binds_spec in Hb.
    assert (Hnone : ~ Forall (fun sc => binds name sc = false) (chain s)).
    { rewrite <- find_none_Forall. congruence. }
    unfold resolve_in.
    destruct (vars sc !! name) as [i|] eqn:Hv.
    + destruct (dereference h i); split; (done || tauto).
    + destruct Hb as [[? ?]|[c Hc]]; [done |]. rewrite Hc.
      split; (done || tauto).
  - apply find_none_Forall in Hf.
    split; [intros; by simplify_eq | intros [-> _]; done].
Qed.

(** X3.  A lookup panics exactly when the innermost scope binding the name
    has, as its variable slot, something [dereference] cannot read through:
    anything but a pointer that is not nil.  It reports not found (with no
    value) exactly when no scope of the chain binds the name. *)
Theorem getIdent_outcomes (h : Heap) (s : Scope) (name : string) :
  (is_panicked (getIdent h s name) = true <->
     exists sc i,
       List.find (binds name) (chain s) = Some sc /\
       vars sc !! name = Some i /\ ~ is_slot i) /\
  (forall v,
     getIdent h s name = Done (v, false) <->
     v = VNil /\ Forall (fun sc => binds name sc = false) (chain s)).
Proof.
  split; [apply getIdent_panics_iff | intros v; apply getIdent_not_found_iff].
Qed.

(** X4.  A variable slot shows what the program's memory holds at the time
    of the lookup: after the program stores [v] where the slot points, the
    lookup gives [v].  A constant is the value handed to [Constant], whatever
    the memory holds. *)
Theorem getIdent_live_value (h : Heap) (s sc : Scope) (name : string) :
  List.find (binds name) (chain s) = Some sc ->
  (forall l v, vars sc !! name = Some (VPtr (Some l)) ->
     getIdent (store h l v) s name = Done (v, true)) /\
  (forall c h', vars sc !! name = None -> consts sc !! name = Some c ->
     getIdent h' s name = Done (c, true)).
Proof.
  intros Hf. split.
  - intros l v Hv. rewrite getIdent_find, Hf. unfold resolve_in. rewrite Hv.
    cbn. unfold store. by rewrite Pos.eqb_refl.
  - intros c h' Hv Hc. rewrite getIdent_find, Hf. unfold resolve_in.
    by rewrite Hv, Hc.
Qed.

Lemma bind_all_snoc (m : gmap string value) (kvs : list (string * value))
    (k : string) (v : value) :
  bind_all m (kvs ++ [(k, v)]) = <[k := v]> (bind_all m kvs).
Proof. unfold bind_all. by rewrite foldl_app. Qed.

Lemma bind_all_lookup_notin (m : gmap string value) (kvs : list (string * value))
    (k : string) :
  k ∉ kvs.*1 -> bind_all m kvs !! k = m !! k.
Proof.
  revert m. induction kvs as [|[k' v'] kvs IH]; intros m Hk; cbn; [done |].
  rewrite fmap_cons, not_elem_of_cons in Hk. destruct Hk as [Hne Hk]. cbn in Hne.
  change (bind_all (<[k' := v']> m) kvs !! k = m !! k).
  rewrite IH by done. by rewrite lookup_insert_ne.
Qed.

Lemma bind_all_lookup_last (m : gmap string value)
    (kvs1 kvs2 : list (string * value)) (k : string) (v : value) :
  k ∉ kvs2.*1 -> bind_all m (kvs1 ++ (k, v) :: kvs2) !! k = Some v.
Proof.
  intros Hk. unfold bind_all. rewrite foldl_app. cbn.
  change (bind_all (<[k := v]> (bind_all m kvs1)) kvs2 !! k = Some v).
  rewrite bind_all_lookup_notin by done. apply lookup_insert_eq.
Qed.

Lemma addIdents_namevalues (to : gmap string value) (funcName : string)
    (kvs : list (string * value)) (rest : list value) :
  addIdents to funcName (namevalues kvs ++ rest) =
  addIdents (bind_all to kvs) funcName rest.
Proof.
  revert to. induction kvs as [|[k v] kvs IH]; intros to; [done |].
  cbn [namevalues app addIdents]. by rewrite IH.
Qed.

Lemma Scope_Declare_pairs (s : Scope) (kvs : list (string * value)) :
  Scope_Declare s (namevalues kvs) =
    (with_vars s (bind_all (vars s) kvs), Done tt) /\
  Scope_Constant s (namevalues kvs) =
    (with_consts s (bind_all (consts s) kvs), Done tt).
Proof.
  unfold Scope_Declare, Scope_Constant.
  rewrite <- (app_nil_r (namevalues kvs)), !addIdents_namevalues. done.
Qed.

(** X5.  After [Declare] with a list of name/value pairs, a name reads as
    the value of its last pair in the list, and a name the list does not
    mention reads as before; the constants, the parent and the source text
    are those of before.  The same holds for [Constant] with variables and
    constants exchanged. *)
Theorem Scope_Declare_lookup (s : Scope) (kvs1 kvs2 : list (string * value))
    (k : string) (v : value) :
  k ∉ kvs2.*1 ->
  let kvs := kvs1 ++ (k, v) :: kvs2 in
  let d := (Scope_Declare s (namevalues kvs)).1 in
  let c := (Scope_Constant s (namevalues kvs)).1 in
  vars d !! k = Some v /\
  (forall k', k' ∉ kvs.*1 -> vars d !! k' = vars s !! k') /\
  consts d = consts s /\ parent d = parent s /\ fileText d = fileText s /\
  consts c !! k = Some v /\
  (forall k', k' ∉ kvs.*1 -> consts c !! k' = consts s !! k') /\
  vars c = vars s /\ parent c = parent s /\ fileText c = fileText s.
Proof.
  intros Hk kvs d c. subst d c.
  destruct (Scope_Declare_pairs s kvs) as [-> ->]. cbn.
  repeat split; auto using bind_all_lookup_notin;
    subst kvs; by apply bind_all_lookup_last.
Qed.

(** X6.  A malformed call has bound everything before the place it stops
    at: with a name position that holds no string, the pairs before it are
    bound and the panic names that argument; with a value left over at the
    end, all pairs are bound and the panic names the odd count. *)
Theorem Scope_Declare_partial (s : Scope) (kvs : list (string * value))
    (bad x v : value) (rest : list value) :
  is_string bad = false ->
  Scope_Declare s (namevalues kvs ++ bad :: v :: rest) =
    (with_vars s (bind_all (vars s) kvs),
     Panicked (PanicString (not_a_string_msg "Declare"))) /\
  Scope_Declare s (namevalues kvs ++ [x]) =
    (with_vars s (bind_all (vars s) kvs),
     Panicked (PanicString (odd_arguments_msg "Declare"))) /\
  Scope_Constant s (namevalues kvs ++ bad :: v :: rest) =
    (with_consts s (bind_all (consts s) kvs),
     Panicked (PanicString (not_a_string_msg "Constant"))) /\
  Scope_Constant s (namevalues kvs ++ [x]) =
    (with_consts s (bind_all (consts s) kvs),
     Panicked (PanicString (odd_arguments_msg "Constant"))).
Proof.
  intros Hbad. unfold Scope_Declare, Scope_Constant.
  rewrite !addIdents_namevalues. cbn [addIdents].
  destruct bad; try discriminate; done.
Qed.

(** X7.  A block scope is transparent for the names it does not declare and
    shadows the ones it does: the lookup of a name the block did not declare
    is the lookup in the enclosing scope, and the lookup of a name whose last
    declaration in the block is a slot reads that slot, whatever the
    enclosing scopes bind. *)
Theorem child_scope_lookup (h : Heap) (s : Scope) (kvs : list (string * value)) :
  let c := (Scope_Declare (EnteringNewChildScope s) (namevalues kvs)).1 in
  fileText c = fileText s /\
  (forall name, name ∉ kvs.*1 -> getIdent h c name = getIdent h s name) /\
  (forall kvs1 kvs2 name l,
     kvs = kvs1 ++ (name, VPtr (Some l)) :: kvs2 -> name ∉ kvs2.*1 ->
     getIdent h c name = Done (h l, true)).
Proof.
  intros c. subst c.
  destruct (Scope_Declare_pairs (EnteringNewChildScope s) kvs) as [-> _].
  cbn. split; [done |]. split.
  - intros name Hn. rewrite bind_all_lookup_notin by done.
    by rewrite !lookup_empty.
  - intros kvs1 kvs2 name l -> Hn. by rewrite bind_all_lookup_last.
Qed.

(** *** Scopes with proper slots *)

Lemma bind_all_slots (m : gmap string value) (kvs : list (string * value)) :
  map_Forall (fun _ i => is_slot i) m ->
  Forall (fun kv => is_slot kv.2) kvs ->
  map_Forall (fun _ i => is_slot i) (bind_all m kvs).
Proof.
  intros Hm Hkvs. revert m Hm.
  induction Hkvs as [|[k v] kvs Hv _ IH]; intros m Hm; [done |].
  apply IH. by apply map_Forall_insert_2.
Qed.

Lemma slots_ok_new (text : string) : slots_ok (EnteringNewScope text).
Proof. repeat constructor. cbn. apply map_Forall_empty. Qed.

Lemma slots_ok_child (s : Scope) :
  slots_ok s -> slots_ok (EnteringNewChildScope s).
Proof. intros Hs. constructor; [apply map_Forall_empty | exact Hs]. Qed.

Lemma slots_ok_Declare (s : Scope) (kvs : list (string * value)) :
  slots_ok s -> Forall (fun kv => is_slot kv.2) kvs ->
  slots_ok (Scope_Declare s (namevalues kvs)).1.
Proof.
  intros Hs Hkvs. destruct (Scope_Declare_pairs s kvs) as [-> _].
  destruct s as [vs cs p ft]. unfold slots_ok in *. cbn in *.
  apply Forall_cons in Hs as [Hvs Hp].
  constructor; [by apply bind_all_slots | exact Hp].
Qed.

Lemma slots_ok_Constant (s : Scope) (kvs : list (string * value)) :
  slots_ok s -> slots_ok (Scope_Constant s (namevalues kvs)).1.
Proof.
  intros Hs. destruct (Scope_Declare_pairs s kvs) as [_ ->].
  destruct s as [vs cs p ft]. unfold slots_ok in *. cbn in *.
  apply Forall_cons in Hs as [Hvs Hp]. by constructor.
Qed.

(** X16.  Scopes made by the package's own functions have proper slots as
    long as [Declare] is handed pointers that are not nil: a new scope has
    them, a child scope and [Constant] keep them, and [Declare] keeps them
    when every value in its list is such a pointer. *)
Theorem slots_ok_built (s : Scope) (text : string)
    (kvs : list (string * value)) :
  slots_ok (EnteringNewScope text) /\
  (slots_ok s -> slots_ok (EnteringNewChildScope s)) /\
  (slots_ok s -> slots_ok (Scope_Constant s (namevalues kvs)).1) /\
  (slots_ok s -> Forall (fun kv => is_slot kv.2) kvs ->
     slots_ok (Scope_Declare s (namevalues kvs)).1).
Proof.
  split; [apply slots_ok_new |]. split; [apply slots_ok_child |].
  split; [apply slots_ok_Constant | apply slots_ok_Declare].
Qed.

End ScopeLookup.

(** ** The command loop, continued *)

Section CommandLoop.

Context `{GoLib}.

Lemma is_one_of_In (s : string) (cases : list string) :
  is_one_of s cases = true <-> In s cases.
Proof.
  unfold is_one_of. rewrite existsb_exists. split.
  - intros (x & Hx & Heq). apply String.eqb_eq in Heq. by subst.
  - intros Hin. exists s. split; [done | apply String.eqb_refl].
Qed.

Lemma help_does_not_resume (s : string) :
  is_one_of s ["?"; "h"; "help"] = true -> resumes s = None.
Proof.
  rewrite is_one_of_In. cbn. intros [<- | [<- | [<- | []]]]; reflexivity.
Qed.

Lemma printContext_loop_prints (lines : list string) (cur : Z) (idxs : list Z)
    (w : World) :
  exists out,
    printContext_loop lines cur idxs w = (Done tt, set_stdout (stdout w ++ out) w).
Proof.
  revert w. induction idxs as [|i idxs IH]; intros w; cbn [printContext_loop].
  - exists []. run_m. rewrite app_nil_r. by destruct w.
  - run_m. unfold printContext_at.
    destruct (_ && _); run_m; cbn.
    + destruct (IH (set_stdout (stdout w ++
        [TrimRightSpace ((if i =? cur then "--> " else "    ") +:+
           nth (Z.to_nat i) lines EmptyString) +:+ newline]) w)) as [out Ho].
      rewrite Ho. cbn. eexists. by rewrite <- app_assoc.
    + apply IH.
Qed.

Lemma printContext_prints (lines : list string) (line contextCount : Z)
    (w : World) :
  exists out,
    printContext lines line contextCount w =
      (Done tt, set_stdout (stdout w ++ out) w).
Proof.
  unfold printContext. run_m. cbn.
  match goal with
  | |- context [printContext_loop ?ls ?cur ?idxs ?w1] =>
      destruct (printContext_loop_prints ls cur idxs w1) as [out ->]
  end.
  cbn. eexists. by rewrite <- !app_assoc.
Qed.

Lemma same_but_mode_prints (w w' : World) (out : list string) :
  same_but_mode (set_stdout out w) w' -> same_but_mode w w'.
Proof. done. Qed.

Ltac loop_cbn :=
  cbn -[is_one_of getIdent command_loop printContext first_resume resumes] in *.

(** One more round: what a round that goes on leaves to the rest of the
    loop. *)
Ltac next_round IH :=
  match goal with
  | |- context [command_loop _ _ _ ?w1] =>
      let Hr := fresh "Hr" in
      pose proof (IH w1 eq_refl) as Hr; cbv zeta in Hr;
      destruct (command_loop _ _ _ w1) as [? ?];
      unfold same_but_mode in *; loop_cbn; intuition congruence
  end.

Lemma command_loop_resumes (scope : Scope) (line : Z) (pending : list string) :
  forall w,
    stdin w = pending ->
    let r := command_loop pending scope line w in
    same_but_mode w r.2 /\
    (r.1 = Done tt ->
       currentState (session r.2) = (first_resume pending).1 /\
       stdin r.2 = (first_resume pending).2) /\
    (forall p, r.1 = Panicked p ->
       currentState (session r.2) = currentState (session w)).
Proof.
  induction pending as [|s rest IH]; intros w Hin; cbv zeta;
    cbn [command_loop first_resume]; unfold advance; run_m.
  - cbn. unfold same_but_mode. cbn. intuition congruence.
  - destruct (is_one_of s ["?"; "h"; "help"]) eqn:Hh; loop_cbn.
    { rewrite (help_does_not_resume s Hh). next_round IH. }
    unfold resumes.
    destruct (is_one_of s ["n"; "next"]) eqn:Hn; loop_cbn.
    { unfold same_but_mode. cbn. intuition congruence. }
    destruct (is_one_of s ["s"; "step"]) eqn:Hs; loop_cbn.
    { unfold same_but_mode. cbn. intuition congruence. }
    destruct (is_one_of s ["c"; "continue"]) eqn:Hc; loop_cbn.
    { unfold same_but_mode. cbn. intuition congruence. }
    destruct (is_one_of s ["l"; "list"]) eqn:Hl; loop_cbn.
    { match goal with
      | |- context [printContext ?ls ?l ?c ?w1] =>
          destruct (printContext_prints ls l c w1) as [out ->]
      end.
      loop_cbn. next_round IH. }
    destruct (getIdent (heap w) scope (TrimSpace s)) as [[v [|]]|p] eqn:Hg;
      loop_cbn.
    { next_round IH. }
    2:{ unfold same_but_mode. cbn. intuition congruence. }
    destruct (Sscan s) as [[n cmd] name].
    destruct ((n =? 2) && _); loop_cbn; [| next_round IH].
    destruct (getIdent (heap w) scope (TrimSpace name)) as [[v' [|]]|p] eqn:Hg';
      loop_cbn; try next_round IH.
    unfold same_but_mode. cbn. intuition congruence.
Qed.

(** X8.  The command loop returns at the first line of input that is one of
    n, next, s, step, c, continue, with the mode that command asks for and
    the input after that line still unread; when no such line is left it
    reads all input and returns in mode [run].  Nothing but the mode and
    the standard streams changes, and the mode changes only on a normal
    return. *)
Theorem waitForInput_resumes (scope : Scope) (line : Z) (w : World) :
  let r := waitForInput scope line w in
  same_but_mode w r.2 /\
  (r.1 = Done tt ->
     currentState (session r.2) = (first_resume (stdin w)).1 /\
     stdin r.2 = (first_resume (stdin w)).2) /\
  (forall p, r.1 = Panicked p ->
     currentState (session r.2) = currentState (session w)).
Proof. by apply (command_loop_resumes scope line (stdin w) w). Qed.

(** *** No panic with proper slots *)

Lemma returns_ret {A} (a : A) : returns (mret a : M A).
Proof. intros w. by exists a, w. Qed.

Lemma returns_bind {A B} (m : M A) (f : A -> M B) :
  returns m -> (forall a, returns (f a)) -> returns (m ≫= f).
Proof.
  intros Hm Hf w. destruct (Hm w) as (a & w1 & Hmw). run_m. rewrite Hmw.
  apply Hf.
Qed.

Lemma returns_Print (s : string) : returns (Print s).
Proof. intros w. by eexists _, _. Qed.

Lemma returns_Println (s : string) : returns (Println s).
Proof. apply returns_Print. Qed.

Lemma returns_update (f : Session -> Session) : returns (update f).
Proof. intros w. by eexists _, _. Qed.

Lemma returns_advance (rest : list string) : returns (advance rest).
Proof. intros w. by eexists _, _. Qed.

Lemma returns_memory : returns memory.
Proof. intros w. by eexists _, _. Qed.

Lemma returns_printContext (lines : list string) (line contextCount : Z) :
  returns (printContext lines line contextCount).
Proof.
  intros w. destruct (printContext_prints lines line contextCount w) as [out ->].
  by eexists _, _.
Qed.

Lemma getIdent_slots_ok (h : Heap) (s : Scope) (name : string) :
  slots_ok s -> exists r, getIdent h s name = Done r.
Proof.
  intros Hok. destruct (getIdent h s name) as [r|p] eqn:Hg; [by exists r |].
  exfalso.
  destruct (getIdent_panics_iff h s name) as [Hpanic _].
  rewrite Hg in Hpanic. destruct (Hpanic eq_refl) as (sc & i & Hf & Hv & Hn).
  apply Hn. destruct (List.find_some _ _ Hf) as [Hin _].
  unfold slots_ok in Hok. rewrite Forall_forall in Hok.
  apply (Hok sc (proj2 (list_elem_of_In _ _) Hin) name i Hv).
Qed.

Lemma returns_getIdent (h : Heap) (s : Scope) (name : string) :
  slots_ok s -> returns (lift (getIdent h s name)).
Proof.
  intros Hok w. destruct (getIdent_slots_ok h s name Hok) as [r Hr].
  exists r, w. unfold lift. by rewrite Hr.
Qed.

Lemma returns_command_loop (pending : list string) (scope : Scope) (line : Z) :
  slots_ok scope -> returns (command_loop pending scope line).
Proof.
  intros Hok. induction pending as [|s rest IH]; cbn [command_loop];
    repeat match goal with
           | |- returns (if ?b then _ else _) => destruct b
           | |- returns (let '(_, _) := ?x in _) => destruct x
           | |- returns (_ ≫= _) => apply returns_bind; [| intros ?]
           | |- returns (command_loop rest _ _) => exact IH
           | |- returns (lift (getIdent _ _ _)) => by apply returns_getIdent
           | |- _ => first [ apply returns_Print | apply returns_Println
                           | apply returns_update | apply returns_memory
                           | apply returns_advance | apply returns_printContext ]
           end.
Qed.

(** X9.  With a scope chain whose variable slots are all pointers that are
    not nil, as [Declare] asks, nothing in the command loop panics, whatever
    the operator types; and a line report for a line of the source text
    returns normally, pausing or not. *)
Theorem line_report_returns (c : Context) (s : Scope) (line : Z)
    (prefix : string) (w : World) :
  slots_ok s ->
  GoInt.is_int line ->
  1 <= line <= Z.of_nat (length (fileText s)) ->
  (waitForInput s line w).1 = Done tt /\
  (lineWithPrefix c s line prefix w).1 = Done tt.
Proof.
  intros Hok Hint Hline.
  assert (Hwait : forall w0, (waitForInput s line w0).1 = Done tt).
  { intros w0. unfold waitForInput.
    destruct (returns_command_loop (stdin w0) s line Hok w0) as ([] & w1 & ->).
    done. }
  split; [apply Hwait |].
  unfold lineWithPrefix. run_m.
  destruct (shouldPause c (session w)); cbn -[waitForInput]; [| done].
  change (GoInt.sub line 1) with (GoInt.decr line).
  rewrite GoIntFacts.decr_small
    by (unfold GoInt.is_int, GoInt.int_min in *; lia).
  rewrite index_in_range by lia. cbn -[waitForInput]. apply Hwait.
Qed.

(** X10.  A line report that pauses on a line of the source text shows
    that line, trimmed, after the arrow and the prefix, and then the prompt;
    it makes the current depth the pause depth and clears [justLeft]; when
    it returns, the mode is the one the operator's first resuming command
    asked for ([run] at the end of input) and the input after that command
    is still unread.  The current depth, the followed goroutine and the
    skip flag are as before. *)
Theorem line_report_pauses (c : Context) (s : Scope) (line : Z)
    (prefix : string) (w : World) :
  shouldPause c (session w) = true ->
  GoInt.is_int line ->
  1 <= line <= Z.of_nat (length (fileText s)) ->
  let r := lineWithPrefix c s line prefix w in
  (exists more,
     stdout r.2 =
       stdout w ++
       ("-> " +:+ prefix +:+
        TrimSpace (nth (Z.to_nat (line - 1)) (fileText s) EmptyString) +:+
        newline) :: "(godebug) " :: more) /\
  debuggerDepth (session r.2) = currentDepth (session w) /\
  currentDepth (session r.2) = currentDepth (session w) /\
  justLeft (session r.2) = false /\
  currentGoroutine (session r.2) = currentGoroutine (session w) /\
  skipNextElseIfExpr (session r.2) = skipNextElseIfExpr (session w) /\
  (r.1 = Done tt ->
     currentState (session r.2) = (first_resume (stdin w)).1 /\
     stdin r.2 = (first_resume (stdin w)).2).
Proof.
  intros Hp Hint Hline. cbv zeta.
  unfold lineWithPrefix. run_m. rewrite Hp. cbn -[waitForInput].
  change (GoInt.sub line 1) with (GoInt.decr line).
  rewrite GoIntFacts.decr_small
    by (unfold GoInt.is_int, GoInt.int_min in *; lia).
  rewrite index_in_range by lia. cbn -[waitForInput].
  match goal with
  | |- context [waitForInput s line ?w0] => set (w1 := w0)
  end.
  destruct (waitForInput_prompts s line w1) as [more Hout].
  destruct (command_loop_resumes s line (stdin w1) w1 eq_refl)
    as (Hsame & Hdone & _).
  change (command_loop (stdin w1) s line w1) with (waitForInput s line w1)
    in Hsame, Hdone.
  unfold same_but_mode in Hsame. subst w1. cbn -[waitForInput] in *.
  split.
  - exists more. rewrite Hout. by rewrite <- app_assoc.
  - intuition congruence.
Qed.

(** *** The window [printContext] shows *)

Lemma printContext_loop_output (lines : list string) (cur : Z) (idxs : list Z) :
  forall w,
    printContext_loop lines cur idxs w =
      (Done tt,
       set_stdout (stdout w ++ omap (context_line_at lines cur) idxs) w).
Proof.
  induction idxs as [|i idxs IH]; intros w;
    cbn [printContext_loop omap list_omap].
  - run_m. rewrite app_nil_r. by destruct w.
  - run_m. unfold printContext_at. unfold context_line_at at 1.
    unfold context_line.
    destruct ((0 <=? i) && (i <? Z.of_nat (length lines))); run_m;
      rewrite IH; cbn; [| done].
    by rewrite <- app_assoc.
Qed.

Lemma omap_context_outside (lines : list string) (cur : Z) (idxs : list Z) :
  Forall (fun i => ~ (0 <= i < Z.of_nat (length lines))) idxs ->
  omap (context_line_at lines cur) idxs = [].
Proof.
  induction 1 as [|i idxs Hi _ IH]; [done |]. cbn. rewrite IH.
  unfold context_line_at.
  destruct (Z.leb_spec 0 i); destruct (Z.ltb_spec i (Z.of_nat (length lines)));
    cbn; try done; lia.
Qed.

Lemma omap_context_inside (lines : list string) (cur lo n : Z) :
  0 <= lo -> 0 <= n -> lo + n <= Z.of_nat (length lines) ->
  omap (context_line_at lines cur) (seqZ lo n) =
  imap (fun k text => context_line cur (lo + Z.of_nat k) text)
       (take (Z.to_nat n) (drop (Z.to_nat lo) lines)).
Proof.
  intros Hlo Hn Hhi.
  assert (Hmap : forall idxs,
            Forall (fun i => 0 <= i < Z.of_nat (length lines)) idxs ->
            omap (context_line_at lines cur) idxs =
            (fun i => context_line cur i (nth (Z.to_nat i) lines EmptyString))
              <$> idxs).
  { induction 1 as [|i idxs Hi _ IH]; [done |]. cbn. rewrite IH.
    unfold context_line_at.
    destruct (Z.leb_spec 0 i); destruct (Z.ltb_spec i (Z.of_nat (length lines)));
      cbn; try done; lia. }
  rewrite Hmap.
  2:{ apply Forall_forall. intros i Hi. apply list_elem_of_lookup in Hi as [k Hk].
      apply lookup_seqZ in Hk. lia. }
  apply list_eq. intros k.
  rewrite list_lookup_fmap, list_lookup_imap.
  destruct (decide (Z.of_nat k < n)) as [Hk|Hk].
  - rewrite lookup_seqZ_lt by done.
    rewrite lookup_take_lt, lookup_drop by lia.
    destruct (lookup_lt_is_Some_2 lines (Z.to_nat lo + k) ltac:(lia)) as [text Ht].
    rewrite Ht. cbn. f_equal. f_equal.
    apply nth_lookup_Some. rewrite <- Ht. f_equal. lia.
  - rewrite lookup_seqZ_ge by lia.
    rewrite lookup_take_ge by lia. done.
Qed.

(** X11.  For a line of the source text, [printContext] prints an empty
    line, then the lines from [contextCount] lines above the current one to
    [contextCount] lines below it as far as the text has them, each cut to
    the right, the current one after an arrow and the others after four
    blanks, then an empty line; nothing else changes and nothing panics. *)
Theorem printContext_window (lines : list string) (line contextCount : Z)
    (w : World) :
  1 <= line <= Z.of_nat (length lines) ->
  0 <= contextCount ->
  Z.of_nat (length lines) + contextCount <= GoInt.int_max ->
  let lo := Z.max 0 (line - 1 - contextCount) in
  let hi := Z.min (Z.of_nat (length lines)) (line + contextCount) in
  printContext lines line contextCount w =
    (Done tt,
     set_stdout
       (stdout w ++
        [newline] ++
        imap (fun k text => context_line (line - 1) (lo + Z.of_nat k) text)
             (take (Z.to_nat (hi - lo)) (drop (Z.to_nat lo) lines)) ++
        [newline]) w).
Proof.
  intros Hline Hc Hmax lo hi.
  unfold printContext. fold (GoInt.decr line).
  assert (Hcur : GoInt.decr line = line - 1).
  { apply GoIntFacts.decr_small;
      unfold GoInt.is_int, GoInt.int_min, GoInt.int_max in *; lia. }
  rewrite Hcur.
  assert (Hlo : GoInt.sub (line - 1) contextCount = line - 1 - contextCount).
  { apply GoIntFacts.wrap_id.
    unfold GoInt.is_int, GoInt.int_min, GoInt.int_max in *. lia. }
  assert (Hhi : GoInt.add (line - 1) contextCount = line - 1 + contextCount).
  { apply GoIntFacts.wrap_id.
    unfold GoInt.is_int, GoInt.int_min, GoInt.int_max in *. lia. }
  rewrite Hlo, Hhi.
  assert (Hout :
    omap (context_line_at lines (line - 1))
      (seqZ (line - 1 - contextCount)
         (line - 1 + contextCount - (line - 1 - contextCount) + 1)) =
    imap (fun k text => context_line (line - 1) (lo + Z.of_nat k) text)
         (take (Z.to_nat (hi - lo)) (drop (Z.to_nat lo) lines))).
  { replace (line - 1 + contextCount - (line - 1 - contextCount) + 1)
      with ((lo - (line - 1 - contextCount)) +
            ((hi - lo) + (line + contextCount - hi))) by lia.
    rewrite seqZ_app by lia.
    replace (line - 1 - contextCount + (lo - (line - 1 - contextCount)))
      with lo by lia.
    rewrite seqZ_app by lia.
    rewrite !omap_app.
    rewrite omap_context_outside.
    2:{ apply Forall_forall. intros i Hi.
        apply list_elem_of_lookup in Hi as [k Hk].
        apply lookup_seqZ in Hk. lia. }
    rewrite (omap_context_outside _ _ (seqZ (lo + (hi - lo)) _)).
    2:{ apply Forall_forall. intros i Hi.
        apply list_elem_of_lookup in Hi as [k Hk].
        apply lookup_seqZ in Hk. lia. }
    rewrite app_nil_r. cbn. apply omap_context_inside; lia. }
  run_m. rewrite printContext_loop_output, Hout.
  destruct w as [ss p h o i]. cbn. by rewrite <- !app_assoc.
Qed.

End CommandLoop.

(** ** The state machine over runs of events *)

Section Runs.

Context `{GoLib}.

Lemma lineWithPrefix_just_left (c : Context) (s : Scope) (line : Z)
    (prefix : string) (w : World) :
  session (lineWithPrefix c s line prefix w).2 = session w \/
  justLeft (session (lineWithPrefix c s line prefix w).2) = false.
Proof.
  unfold lineWithPrefix. run_m.
  destruct (shouldPause c (session w)); cbn -[waitForInput]; [| by left].
  right. unfold index.
  destruct (_ && _); unfold panic_with; cbn -[waitForInput]; [| done].
  match goal with
  | |- context [waitForInput s line ?w0] =>
      destruct (command_loop_resumes s line (stdin w0) w0 eq_refl)
        as (Hsame & _);
      change (command_loop (stdin w0) s line w0) with (waitForInput s line w0)
        in Hsame
  end.
  unfold same_but_mode in Hsame. cbn -[waitForInput] in Hsame.
  intuition congruence.
Qed.

Ltac just_left_done :=
  unfold just_left_ok in *; cbn in *;
  repeat match goal with
         | |- context [if ?b then _ else _] => destruct b; cbn in *
         end;
  repeat match goal with
         | Heq : session _ = session _ |- _ => rewrite Heq in *; clear Heq
         end;
  intuition congruence.

(** After a line report, whatever comes next in the same entry point. *)
Ltac after_line c s line prefix w :=
  let Hl := fresh "Hl" in
  pose proof (lineWithPrefix_just_left c s line prefix w) as Hl;
  destruct (lineWithPrefix c s line prefix w) as [[[]|?] ?];
  cbn -[lineWithPrefix] in *;
  destruct Hl as [Hl|Hl].

Lemma report_keeps_just_left_ok (e : Event) :
  body_keeps_just_left_ok e -> keeps_just_left_ok (report e).
Proof.
  intros Hb w Hok.
  destruct e as [[id|] fn | [id|] fn | c | c s line | c s line | c s | c s line
                | c s line | c s line | c s line | c s line | c];
    cbn in Hb; unfold_entry; run_m.
  - (* EnterFunc, known *)
    destruct w as [[st cd dd jl cg sk] p h o i]; cbn in *.
    destruct (id =? cg), st, jl; just_left_done.
  - (* EnterFunc, unknown *)
    specialize (Hb (set_ids ({[lowest_free (size (ids w)) 0 (ids w)]} ∪ ids w) w) Hok).
    cbn. destruct (fn _) as [[[]|p] w1]; cbn in *; exact Hb.
  - destruct w as [[st cd dd jl cg sk] p h o i]; cbn in *.
    destruct (id =? cg), st, jl; just_left_done.
  - specialize (Hb (mkContext (GoInt.to_uint32 (lowest_free (size (ids w)) 0 (ids w))))
                  (set_ids ({[lowest_free (size (ids w)) 0 (ids w)]} ∪ ids w) w) Hok).
    cbn. destruct (fn _ _) as [[[]|p] w1]; cbn in *; exact Hb.
  - (* ExitFunc *)
    destruct w as [[st cd dd jl cg sk] p h o i], c as [g]; cbn in *.
    destruct (cg =? g), st; cbn; try just_left_done.
    destruct (Z.eqb_spec cd dd); cbn; just_left_done.
  - (* Case *) after_line c s line EmptyString w; just_left_done.
  - (* Comm *) after_line c s line EmptyString w; just_left_done.
  - (* EndSelect *) destruct (shouldPause c (session w)); just_left_done.
  - (* Select *)
    destruct (shouldPause c (session w)); cbn -[lineWithPrefix]; [| done].
    after_line c s line EmptyString w; just_left_done.
  - (* Line *) after_line c s line EmptyString w; just_left_done.
  - (* ElseIfSimpleStmt *)
    after_line c s line EmptyString w; just_left_done.
  - (* ElseIfExpr *)
    destruct (_ =? _); cbn -[lineWithPrefix]; [| done].
    destruct (skipNextElseIfExpr (session w)); cbn -[lineWithPrefix];
      [just_left_done |].
    after_line c s line EmptyString w; just_left_done.
  - (* Defer *)
    after_line c s line "<Running deferred function>: " w; just_left_done.
  - (* SetTraceGen *)
    destruct w as [[st cd dd jl cg sk] p h o i]; cbn in *.
    destruct st; just_left_done.
Qed.

Lemma reports_keep_just_left_ok (es : list Event) :
  Forall body_keeps_just_left_ok es -> keeps_just_left_ok (reports es).
Proof.
  induction 1 as [|e es He Hes IH]; intros w Hok; cbn [reports]; [done |].
  pose proof (report_keeps_just_left_ok e He w Hok) as Hw. run_m.
  destruct (report e w) as [[[]|p] w1]; cbn in *; [by apply IH | done].
Qed.

(** X12.  Over any run of events that starts from the program's initial
    session, or from any session where this holds, [justLeft] is set only
    in mode [next] with the pause depth equal to the current depth; so
    whenever it is set, the next line report of the followed goroutine
    pauses. *)
Theorem justLeft_means_pause (es : list Event) (w : World) :
  Forall body_keeps_just_left_ok es ->
  just_left_ok (session w) ->
  just_left_ok initial_session /\
  just_left_ok (session (reports es w).2) /\
  (justLeft (session (reports es w).2) = true ->
   forall c, goroutine c = currentGoroutine (session (reports es w).2) ->
     shouldPause c (session (reports es w).2) = true).
Proof.
  intros Hes Hok. split; [done |].
  pose proof (reports_keep_just_left_ok es Hes w Hok) as Hw.
  split; [exact Hw |].
  intros Hjl c Hc. destruct (Hw Hjl) as [Hn Hd].
  unfold shouldPause. rewrite Hc, Z.eqb_refl, Hn, Hd, Z.eqb_refl. done.
Qed.

(** *** Counting depth *)

Lemma wrap_add_l (a b : Z) : GoInt.wrap (GoInt.wrap a + b) = GoInt.wrap (a + b).
Proof.
  unfold GoInt.wrap. f_equal.
  replace ((a + 2 ^ 63) mod 2 ^ 64 - 2 ^ 63 + b + 2 ^ 63)
    with ((a + 2 ^ 63) mod 2 ^ 64 + b) by lia.
  rewrite Zplus_mod_idemp_l. f_equal. lia.
Qed.

Lemma report_boundary (g : Z) (e : Event) (d : Z) (w : World) :
  boundary g e = Some d ->
  g = currentGoroutine (session w) ->
  currentState (session w) <> run ->
  exists w',
    report e w = (Done tt, w') /\
    currentDepth (session w') = GoInt.wrap (currentDepth (session w) + d) /\
    currentState (session w') = currentState (session w) /\
    currentGoroutine (session w') = currentGoroutine (session w) /\
    quiet w w'.
Proof.
  intros Hb -> Hrun.
  destruct w as [[st cd dd jl cg sk] p h o i]; cbn in *.
  destruct e as [[id|] fn | [id|] fn | [c] | | | | | | | | |]; cbn in Hb;
    try discriminate.
  - destruct (Z.eqb_spec id cg) as [->|]; [| discriminate]. simplify_eq.
    unfold_entry; run_m; cbn. rewrite Z.eqb_refl.
    destruct st, jl; try done; cbn;
      (eexists; split; [reflexivity |]; by repeat split).
  - destruct (Z.eqb_spec id cg) as [->|]; [| discriminate]. simplify_eq.
    unfold_entry; run_m; cbn. rewrite Z.eqb_refl.
    destruct st, jl; try done; cbn;
      (eexists; split; [reflexivity |]; by repeat split).
  - destruct (Z.eqb_spec c cg) as [->|]; [| discriminate]. simplify_eq.
    unfold_entry; run_m; cbn. rewrite Z.eqb_refl.
    destruct st; try done; cbn; try destruct (Z.eqb_spec cd dd); cbn;
      (eexists; split; [reflexivity |]; by repeat split).
Qed.

(** X13.  While the mode is not [run], the current depth counts the entries
    and exits of the followed goroutine exactly: after any run of them it is
    the depth before plus entries minus exits (on Go's [int]); none of them
    pauses or changes the mode or the followed goroutine. *)
Theorem currentDepth_counts (g : Z) (es : list Event) (w : World) :
  Forall (fun e => is_Some (boundary g e)) es ->
  g = currentGoroutine (session w) ->
  currentState (session w) <> run ->
  GoInt.is_int (currentDepth (session w)) ->
  exists w',
    reports es w = (Done tt, w') /\
    currentDepth (session w') =
      GoInt.wrap (currentDepth (session w) + nesting g es) /\
    currentState (session w') = currentState (session w) /\
    currentGoroutine (session w') = currentGoroutine (session w) /\
    quiet w w'.
Proof.
  intros Hes. revert w.
  induction Hes as [|e es [d Hd] _ IH]; intros w Hg Hrun Hint; cbn [reports nesting].
  - exists w. rewrite Z.add_0_r, GoIntFacts.wrap_id by done.
    by repeat split.
  - destruct (report_boundary g e d w Hd Hg Hrun) as (w1 & Hr & Hcd & Hst & Hcg & Hq).
    run_m. rewrite Hr.
    destruct (IH w1) as (w2 & Hr2 & Hcd2 & Hst2 & Hcg2 & Hq2);
      [congruence | congruence | rewrite Hcd; apply GoIntFacts.wrap_is_int |].
    exists w2. rewrite Hr2, Hd. cbn.
    split; [done |]. split.
    { rewrite Hcd2, Hcd, wrap_add_l. f_equal. lia. }
    split; [congruence |]. split; [congruence |].
    destruct Hq, Hq2. split; congruence.
Qed.

(** X15.  The first activation wins: a second [SetTraceGen], by whichever
    goroutine, changes nothing. *)
Theorem SetTraceGen_once (c1 c2 : Context) (w : World) :
  SetTraceGen c2 (SetTraceGen c1 w).2 = (Done tt, (SetTraceGen c1 w).2).
Proof.
  destruct w as [[st cd dd jl cg sk] p h o i], c1 as [g1], c2 as [g2].
  unfold SetTraceGen. run_m. by destruct st.
Qed.

(** *** Stepping over a call *)

(** One event while the followed goroutine is deeper than the pause depth
    afterwards. *)
Lemma report_below_pause_depth (g : Z) (e : Event) (w : World) :
  is_Some (identity e) ->
  currentState (session w) = next ->
  currentGoroutine (session w) = g ->
  justLeft (session w) = false ->
  GoInt.is_int (currentDepth (session w)) ->
  GoInt.is_int (debuggerDepth (session w)) ->
  currentDepth (session w) < GoInt.int_max ->
  debuggerDepth (session w) <= currentDepth (session w) ->
  debuggerDepth (session w) <
    currentDepth (session w) + default 0 (boundary g e) ->
  exists w',
    report e w = (Done tt, w') /\
    quiet w w' /\
    currentState (session w') = next /\
    currentGoroutine (session w') = g /\
    justLeft (session w') = false /\
    debuggerDepth (session w') = debuggerDepth (session w) /\
    currentDepth (session w') =
      currentDepth (session w) + default 0 (boundary g e).
Proof.
  intros Hid Hn Hg Hjl Hcd Hdd Hmax Hle Hlt.
  destruct w as [[st cd dd jl cg sk] p h o i]; cbn in *. subst st cg jl.
  destruct e as [[id|] fn | [id|] fn | [c] | c s line | c s line | c s
                | c s line | c s line | c s line | c s line | c s line | c];
    cbn in Hid, Hlt; try (by destruct Hid).
  all: assert (Hsp : dd < cd -> forall c0,
         shouldPause c0 (mkSession next cd dd false g sk) = false)
    by (intros Hdeep c0; unfold shouldPause; cbn;
        destruct (Z.eqb_spec cd dd); [lia | apply andb_false_r]).
  all: assert (Hline : dd < cd -> forall c0 s0 l0 pre w0,
         session w0 = mkSession next cd dd false g sk ->
         lineWithPrefix c0 s0 l0 pre w0 = (Done tt, w0))
    by (intros Hdeep c0 s0 l0 pre w0 Hw0; apply lineWithPrefix_skip;
        rewrite Hw0; by apply Hsp).
  - (* EnterFunc *)
    unfold_entry; run_m; cbn.
    destruct (Z.eqb_spec id g) as [->|Hne]; cbn in *.
    + eexists; split; [reflexivity |]; cbn.
      repeat split; try done. apply GoIntFacts.incr_small; [done | lia].
    + eexists; split; [reflexivity |]; cbn. repeat split; try done; lia.
  - (* EnterFuncLit *)
    unfold_entry; run_m; cbn.
    destruct (Z.eqb_spec id g) as [->|Hne]; cbn in *.
    + eexists; split; [reflexivity |]; cbn.
      repeat split; try done. apply GoIntFacts.incr_small; [done | lia].
    + eexists; split; [reflexivity |]; cbn. repeat split; try done; lia.
  - (* ExitFunc *)
    unfold_entry; run_m; cbn. rewrite (Z.eqb_sym g c).
    destruct (Z.eqb_spec c g) as [->|Hne]; cbn in *.
    + destruct (Z.eqb_spec cd dd); [lia |]. cbn.
      eexists; split; [reflexivity |]; cbn.
      repeat split; try done. rewrite GoIntFacts.decr_small; [lia | done |].
      unfold GoInt.is_int in *. lia.
    + eexists; split; [reflexivity |]; cbn. repeat split; try done; lia.
  - (* Case *)
    unfold_entry; run_m. rewrite Hline by (done || lia). cbn.
    eexists; split; [reflexivity |]; cbn. repeat split; try done; lia.
  - (* Comm *)
    unfold_entry; run_m. rewrite Hline by (done || lia). cbn.
    eexists; split; [reflexivity |]; cbn. repeat split; try done; lia.
  - (* EndSelect *)
    unfold_entry; run_m. cbn [session]. rewrite Hsp by lia. cbn.
    eexists; split; [reflexivity |]; cbn. repeat split; try done; lia.
  - (* Select *)
    unfold_entry; run_m. cbn [session]. rewrite Hsp by lia. cbn.
    eexists; split; [reflexivity |]; cbn. repeat split; try done; lia.
  - (* Line *)
    unfold_entry; run_m. rewrite Hline by (done || lia). cbn.
    eexists; split; [reflexivity |]; cbn. repeat split; try done; lia.
  - (* ElseIfSimpleStmt: the flag is set *)
    unfold_entry; run_m. rewrite Hline by (done || lia). cbn.
    eexists; split; [reflexivity |]; cbn. repeat split; try done; lia.
  - (* ElseIfExpr: the flag is cleared, or a line report that does not pause *)
    unfold_entry; run_m. cbn [session currentGoroutine skipNextElseIfExpr].
    destruct (g =? goroutine c); cbn; [| eexists; split; [reflexivity |]; cbn;
                                         repeat split; try done; lia].
    destruct sk; cbn; rewrite ?Hline by (done || lia);
      (eexists; split; [reflexivity |]; cbn; repeat split; try done; lia).
  - (* Defer *)
    unfold_entry; run_m. rewrite Hline by (done || lia). cbn.
    eexists; split; [reflexivity |]; cbn. repeat split; try done; lia.
  - (* SetTraceGen *)
    unfold_entry; run_m. cbn.
    eexists; split; [reflexivity |]; cbn. repeat split; try done; lia.
Qed.

Lemma boundary_range (g : Z) (e : Event) :
  -1 <= default 0 (boundary g e) <= 1.
Proof.
  destruct e as [[id|] fn | [id|] fn | c | | | | | | | | |]; cbn; try lia;
    destruct (_ =? _); cbn; lia.
Qed.

Lemma reports_app (es1 es2 : list Event) (w w1 : World) :
  reports es1 w = (Done tt, w1) ->
  reports (es1 ++ es2) w = reports es2 w1.
Proof.
  revert w. induction es1 as [|e es1 IH]; intros w; cbn [reports app].
  - run_m. by intros [= ->].
  - run_m. destruct (report e w) as [[[]|p] w0]; [apply IH | done].
Qed.

(** A run during which the followed goroutine is, after every event, deeper
    than the pause depth. *)
Lemma run_below_pause_depth (g : Z) (es : list Event) :
  forall w,
    Forall (fun e => is_Some (identity e)) es ->
    currentState (session w) = next ->
    currentGoroutine (session w) = g ->
    justLeft (session w) = false ->
    GoInt.is_int (currentDepth (session w)) ->
    GoInt.is_int (debuggerDepth (session w)) ->
    currentDepth (session w) + Z.of_nat (length es) <= GoInt.int_max ->
    debuggerDepth (session w) <= currentDepth (session w) ->
    (forall n, (0 < n <= length es)%nat ->
       debuggerDepth (session w) <
         currentDepth (session w) + nesting g (take n es)) ->
    exists w',
      reports es w = (Done tt, w') /\
      quiet w w' /\
      currentState (session w') = next /\
      currentGoroutine (session w') = g /\
      justLeft (session w') = false /\
      debuggerDepth (session w') = debuggerDepth (session w) /\
      currentDepth (session w') = currentDepth (session w) + nesting g es.
Proof.
  induction es as [|e es IH]; intros w Hid Hn Hg Hjl Hcd Hdd Hmax Hle Hdeep;
    cbn [reports nesting].
  - exists w. rewrite Z.add_0_r. by repeat split.
  - apply Forall_cons in Hid as [Hide Hides].
    pose proof (boundary_range g e) as Hrange.
    assert (Hfirst : debuggerDepth (session w) <
                     currentDepth (session w) + default 0 (boundary g e)).
    { specialize (Hdeep 1%nat ltac:(cbn; lia)). cbn in Hdeep.
      rewrite take_0 in Hdeep. cbn in Hdeep. lia. }
    cbn [length] in Hmax.
    destruct (report_below_pause_depth g e w Hide Hn Hg Hjl Hcd Hdd
                ltac:(lia) Hle Hfirst)
      as (w1 & Hr & Hq & Hn1 & Hg1 & Hjl1 & Hdd1 & Hcd1).
    run_m. rewrite Hr.
    destruct (IH w1) as (w2 & Hr2 & Hq2 & Hn2 & Hg2 & Hjl2 & Hdd2 & Hcd2);
      try done.
    + rewrite Hcd1. unfold GoInt.is_int in *. lia.
    + congruence.
    + rewrite Hcd1. lia.
    + rewrite Hdd1, Hcd1. lia.
    + intros n Hnlen. rewrite Hdd1, Hcd1.
      specialize (Hdeep (S n) ltac:(cbn; lia)). cbn in Hdeep. lia.
    + exists w2. split; [done |]. split; [by apply quiet_trans with w1 |].
      repeat split; try congruence. rewrite Hcd2, Hcd1. lia.
Qed.

(** X14.  Stepping over a call.  The operator has said next, so the mode is
    [next] and the pause depth is the current depth.  The followed goroutine
    then enters a function; until the exit that brings it back, whatever it
    and the other goroutines report (entries and exits of further calls,
    lines, branch arms, else-ifs, activations) returns normally without
    pausing.  After the matching exit the depths are as before, and the
    followed goroutine's next line report pauses. *)
Theorem step_over_call (g : Z) (es : list Event) (c : Context) (w : World) :
  currentState (session w) = next ->
  currentGoroutine (session w) = g ->
  goroutine c = g ->
  debuggerDepth (session w) = currentDepth (session w) ->
  justLeft (session w) = false ->
  GoInt.is_int (currentDepth (session w)) ->
  currentDepth (session w) + Z.of_nat (length es) <= GoInt.int_max ->
  Forall (fun e => is_Some (identity e)) es ->
  (forall n, (0 < n <= length es)%nat -> 0 < nesting g (take n es)) ->
  nesting g es = 1 ->
  (forall n, exists wn,
     reports (take n es) w = (Done tt, wn) /\ quiet w wn) /\
  exists w',
    reports (es ++ [ExitFuncEv c]) w = (Done tt, w') /\
    quiet w w' /\
    same_but_skip (session w) (session w') /\
    shouldPause c (session w') = true.
Proof.
  intros Hn Hg Hc Hdd Hjl Hcd Hmax Hid Hdeep Hnest.
  assert (Hdd' : GoInt.is_int (debuggerDepth (session w))) by by rewrite Hdd.
  split.
  - intros n.
    destruct (run_below_pause_depth g (take n es) w) as (wn & Hr & Hq & _);
      try done.
    + by apply Forall_take.
    + rewrite length_take. lia.
    + lia.
    + intros m Hm. rewrite length_take in Hm.
      rewrite take_take, Nat.min_l by lia.
      specialize (Hdeep m ltac:(lia)). lia.
    + by exists wn.
  - destruct (run_below_pause_depth g es w)
      as (w1 & Hr & Hq & Hn1 & Hg1 & Hjl1 & Hdd1 & Hcd1); try done.
    + lia.
    + intros m Hm. specialize (Hdeep m Hm). lia.
    + rewrite (reports_app es _ w w1 Hr). cbn [reports]. unfold_entry. run_m.
      rewrite Hg1, Hc, Z.eqb_refl, Hn1. cbn.
      destruct (Z.eqb_spec (currentDepth (session w1)) (debuggerDepth (session w1)));
        [lia |]. cbn.
      assert (Hback : GoInt.decr (currentDepth (session w1)) =
                      currentDepth (session w)).
      { assert (Hlen : (0 < length es)%nat)
          by (destruct es; [cbn in Hnest; lia | cbn; lia]).
        rewrite Hcd1, Hnest. rewrite GoIntFacts.decr_small; [lia | |];
          unfold GoInt.is_int in *; lia. }
      eexists. split; [reflexivity |]. cbn.
      split; [destruct Hq; by split |].
      split.
      { unfold same_but_skip. cbn. rewrite Hback. repeat split; congruence. }
      unfold shouldPause. cbn.
      rewrite Hg1, Hc, Z.eqb_refl, Hn1, Hback, Hdd1, Hdd, Z.eqb_refl. done.
Qed.

End Runs.

(** * Further examples *)

Module MoreExamples.
Import Plain.

Lemma small_is_int (z : Z) : -1000 <= z <= 1000 -> GoInt.is_int z.
Proof. unfold GoInt.is_int, GoInt.int_min, GoInt.int_max. lia. Qed.

Lemma inner_slots_ok : slots_ok inner.
Proof.
  apply (slots_ok_Declare (EnteringNewChildScope outer)
           [("x", VPtr (Some 2%positive))]).
  - apply slots_ok_child.
    apply (slots_ok_Constant _ [("k", VInt 3)]).
    apply (slots_ok_Declare (EnteringNewScope text)
             [("x", VPtr (Some 1%positive))]).
    + apply slots_ok_new.
    + repeat constructor. by exists 1%positive.
  - repeat constructor. by exists 2%positive.
Qed.

Lemma parseLines_join_lines_witness :
  let ls := ["x := 1"; "y := x"] in
  let l := "return y" in
  Forall (fun l => has_newline l = false) ls /\
  has_newline l = false /\
  parseLines (join_lines ls) = ls /\
  (l <> EmptyString -> parseLines (join_lines ls +:+ l) = ls ++ [l]).
Proof.
  cbv zeta.
  assert (Hls : Forall (fun l => has_newline l = false) ["x := 1"; "y := x"])
    by (repeat constructor).
  split; [exact Hls |]. split; [reflexivity |].
  apply (parseLines_join_lines ["x := 1"; "y := x"] "return y" Hls eq_refl).
Defined.

Lemma getIdent_live_value_witness :
  List.find (binds "x") (chain inner) = Some inner /\
  (forall l v, vars inner !! "x" = Some (VPtr (Some l)) ->
     getIdent (store mem l v) inner "x" = Done (v, true)) /\
  (forall c h', vars inner !! "x" = None -> consts inner !! "x" = Some c ->
     getIdent h' inner "x" = Done (c, true)).
Proof.
  split; [reflexivity |].
  apply (getIdent_live_value mem inner inner "x"). reflexivity.
Defined.

Lemma Scope_Declare_lookup_witness :
  let kvs1 := [("x", VInt 1)] in
  let kvs2 := [("y", VInt 3)] in
  let kvs := kvs1 ++ ("x", VInt 2) :: kvs2 in
  let d := (Scope_Declare outer (namevalues kvs)).1 in
  let c := (Scope_Constant outer (namevalues kvs)).1 in
  ("x" ∉ kvs2.*1) /\
  vars d !! "x" = Some (VInt 2) /\
  (forall k', k' ∉ kvs.*1 -> vars d !! k' = vars outer !! k') /\
  consts d = consts outer /\ parent d = parent outer /\
  fileText d = fileText outer /\
  consts c !! "x" = Some (VInt 2) /\
  (forall k', k' ∉ kvs.*1 -> consts c !! k' = consts outer !! k') /\
  vars c = vars outer /\ parent c = parent outer /\
  fileText c = fileText outer.
Proof.
  cbv zeta.
  assert (Hk : "x" ∉ [("y", VInt 3)].*1)
    by (apply (bool_decide_unpack _); vm_compute; exact I).
  split; [exact Hk |].
  apply (Scope_Declare_lookup outer [("x", VInt 1)] [("y", VInt 3)] "x"
           (VInt 2) Hk).
Defined.

Lemma Scope_Declare_partial_witness :
  let kvs := [("a", VInt 1)] in
  is_string (VInt 7) = false /\
  Scope_Declare outer (namevalues kvs ++ VInt 7 :: VInt 8 :: []) =
    (with_vars outer (bind_all (vars outer) kvs),
     Panicked (PanicString (not_a_string_msg "Declare"))) /\
  Scope_Declare outer (namevalues kvs ++ [VInt 9]) =
    (with_vars outer (bind_all (vars outer) kvs),
     Panicked (PanicString (odd_arguments_msg "Declare"))) /\
  Scope_Constant outer (namevalues kvs ++ VInt 7 :: VInt 8 :: []) =
    (with_consts outer (bind_all (consts outer) kvs),
     Panicked (PanicString (not_a_string_msg "Constant"))) /\
  Scope_Constant outer (namevalues kvs ++ [VInt 9]) =
    (with_consts outer (bind_all (consts outer) kvs),
     Panicked (PanicString (odd_arguments_msg "Constant"))).
Proof.
  cbv zeta. split; [reflexivity |].
  apply (Scope_Declare_partial outer [("a", VInt 1)] (VInt 7) (VInt 9)
           (VInt 8) [] eq_refl).
Defined.

Lemma line_report_returns_witness :
  let w := world step 0 0 ["total"; "p x"; "l"] in
  slots_ok inner /\
  GoInt.is_int 2 /\
  1 <= 2 <= Z.of_nat (length (fileText inner)) /\
  (waitForInput inner 2 w).1 = Done tt /\
  (lineWithPrefix followed inner 2 EmptyString w).1 = Done tt.
Proof.
  cbv zeta.
  assert (Hint : GoInt.is_int 2) by (apply small_is_int; lia).
  assert (Hline : 1 <= 2 <= Z.of_nat (length (fileText inner)))
    by (split; vm_compute; discriminate).
  split; [exact inner_slots_ok |]. split; [exact Hint |].
  split; [exact Hline |].
  apply (line_report_returns followed inner 2 EmptyString
           (world step 0 0 ["total"; "p x"; "l"]) inner_slots_ok Hint Hline).
Defined.

Lemma line_report_pauses_witness :
  let w := world step 3 0 ["h"; "n"; "c"] in
  let r := lineWithPrefix followed outer 2 EmptyString w in
  shouldPause followed (session w) = true /\
  GoInt.is_int 2 /\
  1 <= 2 <= Z.of_nat (length (fileText outer)) /\
  (exists more,
     stdout r.2 =
       stdout w ++
       ("-> " +:+ EmptyString +:+
        TrimSpace (nth (Z.to_nat (2 - 1)) (fileText outer) EmptyString) +:+
        newline) :: "(godebug) " :: more) /\
  debuggerDepth (session r.2) = currentDepth (session w) /\
  currentDepth (session r.2) = currentDepth (session w) /\
  justLeft (session r.2) = false /\
  currentGoroutine (session r.2) = currentGoroutine (session w) /\
  skipNextElseIfExpr (session r.2) = skipNextElseIfExpr (session w) /\
  (r.1 = Done tt ->
     currentState (session r.2) = (first_resume (stdin w)).1 /\
     stdin r.2 = (first_resume (stdin w)).2).
Proof.
  cbv zeta.
  assert (Hint : GoInt.is_int 2) by (apply small_is_int; lia).
  assert (Hline : 1 <= 2 <= Z.of_nat (length (fileText outer)))
    by (split; vm_compute; discriminate).
  split; [reflexivity |]. split; [exact Hint |]. split; [exact Hline |].
  apply (line_report_pauses followed outer 2 EmptyString
           (world step 3 0 ["h"; "n"; "c"]) eq_refl Hint Hline).
Defined.

Lemma printContext_window_witness :
  let lines := ["a"; "b"; "c"; "d"; "e"; "f"; "g"] in
  let w := world step 0 0 [] in
  let lo := Z.max 0 (6 - 1 - 4) in
  let hi := Z.min (Z.of_nat (length lines)) (6 + 4) in
  1 <= 6 <= Z.of_nat (length lines) /\
  0 <= 4 /\
  Z.of_nat (length lines) + 4 <= GoInt.int_max /\
  printContext lines 6 4 w =
    (Done tt,
     set_stdout
       (stdout w ++
        [newline] ++
        imap (fun k text => context_line (6 - 1) (lo + Z.of_nat k) text)
             (take (Z.to_nat (hi - lo)) (drop (Z.to_nat lo) lines)) ++
        [newline]) w).
Proof.
  cbv zeta.
  assert (H1 : 1 <= 6 <= Z.of_nat (length ["a"; "b"; "c"; "d"; "e"; "f"; "g"]))
    by (cbn; lia).
  assert (H2 : 0 <= 4) by lia.
  assert (H3 : Z.of_nat (length ["a"; "b"; "c"; "d"; "e"; "f"; "g"]) + 4 <=
               GoInt.int_max) by (vm_compute; discriminate).
  split; [exact H1 |]. split; [exact H2 |]. split; [exact H3 |].
  apply (printContext_window ["a"; "b"; "c"; "d"; "e"; "f"; "g"] 6 4
           (world step 0 0 []) H1 H2 H3).
Defined.

(** Line 6 of seven with four lines of context: lines 2 to 7. *)
Example list_shows_window :
  stdout (printContext ["a"; "b"; "c"; "d"; "e"; "f"; "g"] 6 4
            (world step 0 0 [])).2 =
    [newline; "    b" +:+ newline; "    c" +:+ newline; "    d" +:+ newline;
     "    e" +:+ newline; "--> f" +:+ newline; "    g" +:+ newline; newline].
Proof. reflexivity. Qed.

Lemma justLeft_means_pause_witness :
  let es := [SetTraceGenEv followed; LineEv followed outer 1;
             ExitFuncEv followed] in
  let w := world run 0 0 ["n"] in
  Forall body_keeps_just_left_ok es /\
  just_left_ok (session w) /\
  just_left_ok initial_session /\
  just_left_ok (session (reports es w).2) /\
  (justLeft (session (reports es w).2) = true ->
   forall c, goroutine c = currentGoroutine (session (reports es w).2) ->
     shouldPause c (session (reports es w).2) = true).
Proof.
  cbv zeta.
  assert (Hes : Forall body_keeps_just_left_ok
            [SetTraceGenEv followed; LineEv followed outer 1;
             ExitFuncEv followed]) by (repeat constructor).
  assert (Hok : just_left_ok (session (world run 0 0 ["n"])))
    by (intros Hjl; discriminate Hjl).
  split; [exact Hes |]. split; [exact Hok |].
  apply (justLeft_means_pause _ _ Hes Hok).
Defined.

(** In that run the flag is indeed set at the end: the function paused in
    was left. *)
Example justLeft_is_set :
  justLeft (session (reports [SetTraceGenEv followed; LineEv followed outer 1;
                              ExitFuncEv followed] (world run 0 0 ["n"])).2)
  = true.
Proof. reflexivity. Qed.

Lemma currentDepth_counts_witness :
  let es := [EnterFuncEv (Some 0) (mret tt); EnterFuncEv (Some 0) (mret tt);
             ExitFuncEv followed] in
  let w := world step 5 5 [] in
  Forall (fun e => is_Some (boundary 0 e)) es /\
  0 = currentGoroutine (session w) /\
  currentState (session w) <> run /\
  GoInt.is_int (currentDepth (session w)) /\
  exists w',
    reports es w = (Done tt, w') /\
    currentDepth (session w') =
      GoInt.wrap (currentDepth (session w) + nesting 0 es) /\
    currentState (session w') = currentState (session w) /\
    currentGoroutine (session w') = currentGoroutine (session w) /\
    quiet w w'.
Proof.
  cbv zeta.
  assert (Hes : Forall (fun e => is_Some (boundary 0 e))
            [EnterFuncEv (Some 0) (mret tt); EnterFuncEv (Some 0) (mret tt);
             ExitFuncEv followed]) by (repeat constructor; by eexists).
  assert (Hrun : currentState (session (world step 5 5 [])) <> run)
    by discriminate.
  assert (Hint : GoInt.is_int (currentDepth (session (world step 5 5 []))))
    by (apply small_is_int; cbn; lia).
  split; [exact Hes |]. split; [reflexivity |]. split; [exact Hrun |].
  split; [exact Hint |].
  apply (currentDepth_counts 0 _ (world step 5 5 []) Hes eq_refl Hrun Hint).
Defined.

(** Goroutine 0 enters a function and reports a line in it; goroutine 1
    reports a line of its own meanwhile. *)
Definition call_run : list Event :=
  [EnterFuncEv (Some 0) (mret tt); LineEv followed inner 1;
   LineEv other outer 2].

Lemma step_over_call_witness :
  let w := world next 2 2 [] in
  currentState (session w) = next /\
  currentGoroutine (session w) = 0 /\
  goroutine followed = 0 /\
  debuggerDepth (session w) = currentDepth (session w) /\
  justLeft (session w) = false /\
  GoInt.is_int (currentDepth (session w)) /\
  currentDepth (session w) + Z.of_nat (length call_run) <= GoInt.int_max /\
  Forall (fun e => is_Some (identity e)) call_run /\
  (forall n, (0 < n <= length call_run)%nat -> 0 < nesting 0 (take n call_run)) /\
  nesting 0 call_run = 1 /\
  (forall n, exists wn,
     reports (take n call_run) w = (Done tt, wn) /\ quiet w wn) /\
  exists w',
    reports (call_run ++ [ExitFuncEv followed]) w = (Done tt, w') /\
    quiet w w' /\
    same_but_skip (session w) (session w') /\
    shouldPause followed (session w') = true.
Proof.
  cbv zeta.
  assert (Hint : GoInt.is_int (currentDepth (session (world next 2 2 []))))
    by (apply small_is_int; cbn; lia).
  assert (Hmax : currentDepth (session (world next 2 2 [])) +
                 Z.of_nat (length call_run) <= GoInt.int_max)
    by (vm_compute; discriminate).
  assert (Hid : Forall (fun e => is_Some (identity e)) call_run)
    by (repeat constructor; by eexists).
  assert (Hdeep : forall n, (0 < n <= length call_run)%nat ->
                    0 < nesting 0 (take n call_run)).
  { intros [|[|[|[|n]]]] Hn; cbn in *; lia. }
  repeat (split; [first [reflexivity | assumption] |]).
  apply (step_over_call 0 call_run followed (world next 2 2 [])
           eq_refl eq_refl eq_refl eq_refl eq_refl Hint Hmax Hid Hdeep eq_refl).
Defined.

End MoreExamples.
